(** * Saumil's blog: the post loader and the markdown renderer

    A shallow embedding of [src/utils/blogLoader.js] ([loadBlogPosts],
    [getCategories]) and of [renderContent] in
    [src/components/BlogPost.jsx], with the properties the specification
    states about them.

    Modelling conventions.
    - A JavaScript string is a [string]: a sequence of code units, each
      one an [ascii] (code units below 256).
    - A JavaScript number that the code only ever uses as an integer (the
      [id] counter, a time value, an array index) is a [Z] or a [nat];
      [NaN] is [None] in an [option Z].
    - [undefined] in a front-matter field is [None].
    - A thrown exception is the left injection of a sum; [console.error]
      appends to an explicit console. *)

From Stdlib Require Import String Ascii List ZArith NArith Lia Bool.
From Stdlib Require Import Permutation Sorted.
Import ListNotations.

Local Open Scope string_scope.
Local Open Scope list_scope.

(** ** JavaScript built-ins used by the program *)

Module Js.

(** [s.startsWith(p)] *)
Definition startsWith (s p : string) : bool := String.prefix p s.

(** Drops the first [n] code units of [s]. *)
Fixpoint drop (n : nat) (s : string) : string :=
  match n, s with
  | O, _ => s
  | S n', String _ s' => drop n' s'
  | S _, EmptyString => EmptyString
  end.

(** [s.replace(pat, rep)] with a string pattern: only the first
    occurrence of [pat] is replaced. *)
Fixpoint replace (pat rep s : string) : string :=
  if String.prefix pat s then rep ++ drop (String.length pat) s
  else match s with
       | EmptyString => EmptyString
       | String c s' => String c (replace pat rep s')
       end.

(** [s.split('\n')]: never empty, [''.split('\n')] is [['']]. *)
Definition newline : ascii := ascii_of_nat 10.

Fixpoint split_nl (s : string) : list string :=
  match s with
  | EmptyString => [EmptyString]
  | String c s' =>
      if Ascii.eqb c newline then EmptyString :: split_nl s'
      else match split_nl s' with
           | [] => [String c EmptyString]
           | l :: ls => String c l :: ls
           end
  end.

(** [a.join(sep)] *)
Definition join (sep : string) (a : list string) : string :=
  String.concat sep a.

(** [Array.prototype.sort(cmp)].  The comparator returns a number; a
    [NaN] result counts as [+0].  The sort is stable (ECMAScript 2019):
    it is modelled as the stable insertion sort, in which an element
    moves in front of a later one only when the comparator is positive. *)
Section Sort.
Context {A : Type}.
Variable cmp : A -> A -> option Z.

Definition sortCompare (x y : A) : Z :=
    match cmp x y with
    | Some v => v
    | None => 0%Z
    end.

Fixpoint insert (x : A) (l : list A) : list A :=
    match l with
    | [] => [x]
    | y :: l' =>
        if (sortCompare x y <=? 0)%Z then x :: l else y :: insert x l'
    end.

Fixpoint sort (l : list A) : list A :=
    match l with
    | [] => []
    | x :: l' => insert x (sort l')
    end.
End Sort.

(** The comparator of [a.sort()] without an argument, on strings: the
    order of the code units. *)
Definition defaultCompare (x y : string) : option Z :=
  match String.compare x y with
  | Lt => Some (-1)%Z
  | Eq => Some 0%Z
  | Gt => Some 1%Z
  end.

(** [[...new Set(a)]] on strings: the distinct values, each at the place
    of its first occurrence. *)
Fixpoint set_add (x : string) (seen : list string) : list string :=
  match seen with
  | [] => [x]
  | y :: seen' => if String.eqb x y then seen else y :: set_add x seen'
  end.

Definition distinct (a : list string) : list string :=
  fold_left (fun seen x => set_add x seen) a [].

End Js.

(** ** The loader, [src/utils/blogLoader.js] *)

Module BlogLoader.

(** The [data] object that [matter] returns.  The front-matter keys are
    flat: four strings and an array of strings, each possibly absent. *)
Record Data := mkData {
  data_title : option string;
  data_date : option string;
  data_excerpt : option string;
  data_category : option string;
  data_tags : option (list string)
}.

Record Post := mkPost {
  id : Z;
  slug : string;
  title : option string;
  date : option string;
  excerpt : option string;
  content : string;
  category : string;
  tags : list string
}.

(** What [console.error('Error loading blog posts:', error)] prints. *)
Record LogEntry := mkLog { log_message : string; log_error : string }.

(** [v || d] on an optional string: [undefined] and [''] are falsy. *)
Definition or_string (v : option string) (d : string) : string :=
  match v with
  | Some s => if String.eqb s "" then d else s
  | None => d
  end.

(** [v || d] on an optional array: every array is truthy. *)
Definition or_array (v : option (list string)) (d : list string) : list string :=
  match v with
  | Some a => a
  | None => d
  end.

(** [!category] for the [category] parameter (a string or [null]). *)
Definition falsy (c : option string) : bool :=
  match c with
  | None => true
  | Some s => String.eqb s ""
  end.

(** [post.category === category] *)
Definition strict_eq (pc : string) (c : option string) : bool :=
  match c with
  | None => false
  | Some s => String.eqb pc s
  end.

Section Loader.
  (** The [gray-matter] parser: it throws ([inl]) or returns the
      [data] object and the body. *)
Variable matter : string -> string + (Data * string).
  (** [Date.parse] on a string; [None] is [NaN] (an invalid date). *)
Variable Date_parse : string -> option Z.
  (** The table [blogContents], in the order of [Object.entries]. *)
Variable blogContents : list (string * string).

  (** The time value of [new Date(v)]; [new Date(undefined)] is invalid. *)
Definition new_Date (v : option string) : option Z :=
    match v with
    | Some s => Date_parse s
    | None => None
    end.

  (** [new Date(b.date) - new Date(a.date)] *)
Definition compare_date (a b : Post) : option Z :=
    match new_Date (date b), new_Date (date a) with
    | Some tb, Some ta => Some (tb - ta)%Z
    | _, _ => None
    end.

  (** The variables the loop of [loadBlogPosts] updates. *)
Record LoadState := mkState { posts : list Post; next_id : Z }.

  (** The post built from one entry, lines 34 to 43. *)
Definition build_post (n : Z) (filename : string) (data : Data) (markdown : string) : Post :=
    {| id := n;
       slug := Js.replace ".md" "" filename;
       title := data_title data;
       date := data_date data;
       excerpt := data_excerpt data;
       content := markdown;
       category := or_string (data_category data) "General";
       tags := or_array (data_tags data) [] |}.

  (** One iteration of the loop. *)
Definition loop_body (cat : option string) (entry : string * string)
      (st : LoadState) : string + LoadState :=
    let '(filename, content) := entry in
    match matter content with
    | inl error => inl error
    | inr (data, markdown) =>
        let post := build_post (next_id st) filename data markdown in
        let pushed :=
          if falsy cat || strict_eq (category post) cat
          then posts st ++ [post] else posts st in
        inr {| posts := pushed; next_id := (next_id st + 1)%Z |}
    end.

  (** The [for ... of] loop inside the [try]: an exception leaves the loop
      with the state reached so far. *)
Fixpoint for_entries (cat : option string) (entries : list (string * string))
      (st : LoadState) : LoadState * option string :=
    match entries with
    | [] => (st, None)
    | entry :: rest =>
        match loop_body cat entry st with
        | inl error => (st, Some error)
        | inr st' => for_entries cat rest st'
        end
    end.

  (** [loadBlogPosts(category)] with the console it writes; [cat] is the
      parameter [category]. *)
Definition loadBlogPosts_run (cat : option string) : list Post * list LogEntry :=
    let '(st, thrown) := for_entries cat blogContents {| posts := []; next_id := 1 |} in
    let console :=
      match thrown with
      | Some error => [ {| log_message := "Error loading blog posts:"; log_error := error |} ]
      | None => []
      end in
    (Js.sort compare_date (posts st), console).

Definition loadBlogPosts (cat : option string) : list Post :=
    fst (loadBlogPosts_run cat).

Definition console_of (cat : option string) : list LogEntry :=
    snd (loadBlogPosts_run cat).

Definition getCategories : list string :=
    let posts := loadBlogPosts None in
    let categories := Js.distinct (map category posts) in
    "All" :: Js.sort Js.defaultCompare categories.

  (** Two conditions on a table, used to state the properties: [matter]
      parses every document, and every parsed [date] is a valid date. *)
Definition parses (content : string) : bool :=
    match matter content with inr _ => true | inl _ => false end.

Definition all_parse (entries : list (string * string)) : bool :=
    forallb (fun entry => parses (snd entry)) entries.

Definition valid_dates (entries : list (string * string)) : bool :=
    forallb (fun entry =>
               match matter (snd entry) with
               | inr (data, _) =>
                   match new_Date (data_date data) with Some _ => true | None => false end
               | inl _ => true
               end) entries.

End Loader.

End BlogLoader.

(** ** The renderer, [renderContent] in [src/components/BlogPost.jsx] *)

Module BlogPost.

Local Open Scope char_scope.

(** *** The regular expressions of the renderer *)

(** [\d] *)
Definition is_digit (c : ascii) : bool :=
  let n := nat_of_ascii c in (48 <=? n)%nat && (n <=? 57)%nat.

(** [\s], and the characters [trim] removes: tab, line feed, vertical tab,
    form feed, carriage return, space, no-break space. *)
Definition is_space (c : ascii) : bool :=
  let n := nat_of_ascii c in
  ((9 <=? n)%nat && (n <=? 13)%nat) || (n =? 32)%nat || (n =? 160)%nat.

(** The characters [.] does not match. *)
Definition is_line_terminator (c : ascii) : bool :=
  let n := nat_of_ascii c in (n =? 10)%nat || (n =? 13)%nat.

(** The rest of [s] after its longest prefix of digits, with the number of
    digits read. *)
Fixpoint skip_digits (s : string) : nat * string :=
  match s with
  | String c s' =>
      if is_digit c then let '(n, r) := skip_digits s' in (S n, r) else (O, s)
  | EmptyString => (O, s)
  end.

(** [/^\d+\.\s/]: the text after the marker when the line matches. *)
Definition numbered_marker (line : string) : option string :=
  match skip_digits line with
  | (S _, String "." (String c rest)) => if is_space c then Some rest else None
  | _ => None
  end.

(** [/^[*-]\s/]: the text after the marker when the line matches. *)
Definition bullet_marker (line : string) : option string :=
  match line with
  | String c (String d rest) =>
      if (Ascii.eqb c "*" || Ascii.eqb c "-") && is_space d then Some rest else None
  | _ => None
  end.

(** [line.replace(re, '')] for the two anchored marker expressions. *)
Definition strip (marker : string -> option string) (line : string) : string :=
  match marker line with
  | Some rest => rest
  | None => line
  end.

(** [(.*?)\*\*]: the shortest run of characters other than line
    terminators that is followed by two stars, and what follows them. *)
Fixpoint until_stars (s : string) : option (string * string) :=
  match s with
  | EmptyString => None
  | String c s' =>
      match (if Ascii.eqb c "*" then
               match s' with String "*" rest => Some rest | _ => None end
             else None) with
      | Some rest => Some (EmptyString, rest)
      | None =>
          if is_line_terminator c then None
          else match until_stars s' with
               | Some (capture, rest) => Some (String c capture, rest)
               | None => None
               end
      end
  end.

(** [s.replace(/\*\*(.*?)\*\*/g, '<strong>$1</strong>')], read from left
    to right.  [skip] counts the code units of a match that are still to be
    passed over: after the first star of a match, its second star, the
    captured text and the two closing stars. *)
Fixpoint bold_from (skip : nat) (s : string) : string :=
  match s with
  | EmptyString => EmptyString
  | String c s' =>
      match skip with
      | S k => bold_from k s'
      | O =>
          match (if Ascii.eqb c "*" then
                   match s' with String "*" s'' => until_stars s'' | _ => None end
                 else None) with
          | Some (capture, _) =>
              ("<strong>" ++ capture ++ "</strong>"
               ++ bold_from (1 + String.length capture + 2) s')%string
          | None => String c (bold_from 0 s')
          end
      end
  end.

Definition bold (s : string) : string := bold_from 0 s.

(** [(.*?)\)] *)
Fixpoint until_paren (s : string) : option string :=
  match s with
  | EmptyString => None
  | String c s' =>
      if Ascii.eqb c ")" then Some EmptyString
      else if is_line_terminator c then None
      else option_map (String c) (until_paren s')
  end.

(** [(.*?)\]\((.*?)\)]: the two captures. *)
Fixpoint until_bracket (s : string) : option (string * string) :=
  match s with
  | EmptyString => None
  | String c s' =>
      match (if Ascii.eqb c "]" then
               match s' with String "(" s'' => until_paren s'' | _ => None end
             else None) with
      | Some src => Some (EmptyString, src)
      | None =>
          if is_line_terminator c then None
          else match until_bracket s' with
               | Some (alt, src) => Some (String c alt, src)
               | None => None
               end
      end
  end.

(** [line.match(/!\[(.*?)\]\((.*?)\)/)]: the captures of the leftmost
    match, [None] for [null]. *)
Fixpoint image_match (line : string) : option (string * string) :=
  match line with
  | EmptyString => None
  | String c s' =>
      match (if Ascii.eqb c "!" then
               match s' with String "[" s'' => until_bracket s'' | _ => None end
             else None) with
      | Some captures => Some captures
      | None => image_match s'
      end
  end.

(** [line.match(/!\[.*?\]\(.*?\)/)] used as a condition: the same
    expression without the capture groups. *)
Definition image_test (line : string) : bool :=
  match image_match line with Some _ => true | None => false end.

(** [s.trim()] *)
Fixpoint trimStart (s : string) : string :=
  match s with
  | String c s' => if is_space c then trimStart s' else s
  | EmptyString => EmptyString
  end.

Fixpoint trimEnd (s : string) : string :=
  match s with
  | EmptyString => EmptyString
  | String c s' =>
      let t := trimEnd s' in
      if is_space c && String.eqb t "" then EmptyString else String c t
  end.

Definition trim (s : string) : string := trimEnd (trimStart s).

(** *** The elements and the state of the pass *)

(** A React key: [`p-${index}`] is [IndexKey "p" index], ["final-p"] is
    [NamedKey "final-p"]. *)
Inductive Key :=
| IndexKey (tag : string) (index : nat)
| NamedKey (name : string).

(** [<li key=... dangerouslySetInnerHTML={{ __html: formatted }} />] *)
Record ListItem := li { li_key : Key; li_html : string }.

Inductive Element :=
| pre (key : Key) (code : string)
| p (key : Key) (html : string)
| ul (key : Key) (items : list ListItem)
| h2 (key : Key) (text : string)
| h3 (key : Key) (text : string)
| img (key : Key) (src alt : string).

Record State := mkState {
  elements : list Element;
  currentParagraph : list string;
  inCodeBlock : bool;
  codeLines : list string;
  listItems : list ListItem
}.

Definition initial : State :=
  {| elements := []; currentParagraph := []; inCodeBlock := false;
     codeLines := []; listItems := [] |}.

Definition nonempty {A : Type} (l : list A) : bool :=
  (0 <? List.length l)%nat.

(** [if (currentParagraph.length > 0) { elements.push(<p .../>);
    currentParagraph = []; }] *)
Definition flush_paragraph (k : Key) (st : State) : State :=
  if nonempty (currentParagraph st) then
    {| elements := elements st ++ [p k (Js.join " " (currentParagraph st))];
       currentParagraph := [];
       inCodeBlock := inCodeBlock st;
       codeLines := codeLines st;
       listItems := listItems st |}
  else st.

(** [if (listItems.length > 0) { elements.push(<ul ...>); listItems = []; }] *)
Definition flush_list (k : Key) (st : State) : State :=
  if nonempty (listItems st) then
    {| elements := elements st ++ [ul k (listItems st)];
       currentParagraph := currentParagraph st;
       inCodeBlock := inCodeBlock st;
       codeLines := codeLines st;
       listItems := [] |}
  else st.

Definition flush_both (index : nat) (st : State) : State :=
  flush_list (IndexKey "ul" index) (flush_paragraph (IndexKey "p" index) st).

Definition push (e : Element) (st : State) : State :=
  {| elements := elements st ++ [e];
     currentParagraph := currentParagraph st;
     inCodeBlock := inCodeBlock st;
     codeLines := codeLines st;
     listItems := listItems st |}.

Definition push_item (i : ListItem) (st : State) : State :=
  {| elements := elements st;
     currentParagraph := currentParagraph st;
     inCodeBlock := inCodeBlock st;
     codeLines := codeLines st;
     listItems := listItems st ++ [i] |}.

Definition is_some {A : Type} (o : option A) : bool :=
  match o with Some _ => true | None => false end.

(** The callback of [lines.forEach], lines 12 to 117. *)
Definition step (st : State) (line : string) (index : nat) : State :=
  if Js.startsWith line "```" then
    if inCodeBlock st then
      {| elements := elements st ++ [pre (IndexKey "code" index) (Js.join (String Js.newline "") (codeLines st))];
         currentParagraph := currentParagraph st;
         inCodeBlock := false;
         codeLines := [];
         listItems := listItems st |}
    else
      let st' := flush_both index st in
      {| elements := elements st';
         currentParagraph := currentParagraph st';
         inCodeBlock := true;
         codeLines := codeLines st';
         listItems := listItems st' |}
  else if inCodeBlock st then
    {| elements := elements st;
       currentParagraph := currentParagraph st;
       inCodeBlock := inCodeBlock st;
       codeLines := codeLines st ++ [line];
       listItems := listItems st |}
  else if Js.startsWith line "## " then
    push (h2 (IndexKey "h2" index) (Js.replace "## " "" line)) (flush_both index st)
  else if Js.startsWith line "### " then
    push (h3 (IndexKey "h3" index) (Js.replace "### " "" line)) (flush_both index st)
  else if is_some (numbered_marker line) then
    let text := strip numbered_marker line in
    let formatted := bold text in
    push_item (li (IndexKey "li" index) formatted)
      (flush_paragraph (IndexKey "p" index) st)
  else if Js.startsWith line "- " || Js.startsWith line "* " then
    let text := strip bullet_marker line in
    let formatted := bold text in
    push_item (li (IndexKey "li" index) formatted)
      (flush_paragraph (IndexKey "p" index) st)
  else if String.eqb (trim line) "" then
    flush_both index st
  else if image_test line then
    let st' := flush_both index st in
    match image_match line with
    | Some (alt, src) => push (img (IndexKey "img" index) src alt) st'
    | None => st'
    end
  else
    let formatted := bold line in
    {| elements := elements st;
       currentParagraph := currentParagraph st ++ [formatted];
       inCodeBlock := inCodeBlock st;
       codeLines := codeLines st;
       listItems := listItems st |}.

(** [lines.forEach((line, index) => ...)] from index [index] on. *)
Fixpoint forEach (lines : list string) (index : nat) (st : State) : State :=
  match lines with
  | [] => st
  | line :: rest => forEach rest (S index) (step st line index)
  end.

(** The flush after the loop, lines 119 to 125. *)
Definition finish (st : State) : list Element :=
  elements (flush_list (NamedKey "final-ul") (flush_paragraph (NamedKey "final-p") st)).

Definition renderLines (lines : list string) : list Element :=
  finish (forEach lines 0 initial).

Definition renderContent (markdown : string) : list Element :=
  renderLines (Js.split_nl markdown).

End BlogPost.

(** ** The pages, [src/App.jsx], and the list, [src/components/BlogList.jsx] *)

Module App.
Import BlogLoader.

(** What [BlogList] renders: the message of the empty state, or one card
    for each post, keyed by [post.id]. *)
Inductive ListView :=
| NoPostsMessage
| Cards (cards : list Post).

(** What [BlogPostPage] renders: the "not found" block, or the [BlogPost]
    component with the rendered body of the post. *)
Inductive PostView :=
| NotFound
| Article (post : Post) (body : list BlogPost.Element).

(** [searchParams.get('category') || 'All'] in [HomePage]; [get] returns
    a string or [null]. *)
Definition home_category (param : option string) : string :=
  or_string param "All".

(** [category === 'All' ? null : category], the prop given to [BlogList]. *)
Definition list_category (selected : string) : option string :=
  if String.eqb selected "All" then None else Some selected.

(** The paths that [handleCategoryChange] and [handleSelectPost] navigate to. *)
Definition handleCategoryChange (newCategory : string) : string :=
  if String.eqb newCategory "All" then "/" else "/?category=" ++ newCategory.

Definition handleSelectPost (post : Post) : string :=
  "/post/" ++ slug post.

Section Pages.
Variable matter : string -> string + (Data * string).
Variable Date_parse : string -> option Z.
Variable blogContents : list (string * string).

(** [BlogList({ category })]: [!posts || posts.length === 0] selects the
    empty state; an array is never falsy. *)
Definition BlogList (cat : option string) : ListView :=
  let posts := loadBlogPosts matter Date_parse blogContents cat in
  if (List.length posts =? 0)%nat then NoPostsMessage else Cards posts.

(** [CategoryNav({ selectedCategory })]: one button for each entry of
    [getCategories()], keyed and labelled by the category, with the class
    [active] when [selectedCategory === category]. *)
Definition CategoryNav (selectedCategory : string) : list (string * bool) :=
  map (fun category => (category, String.eqb selectedCategory category))
      (getCategories matter Date_parse blogContents).

(** [BlogPostPage] for the route parameter [slug]: [posts.find] returns
    the first post with that slug, or [undefined]. *)
Definition BlogPostPage (route_slug : string) : PostView :=
  let posts := loadBlogPosts matter Date_parse blogContents None in
  match find (fun post => String.eqb (slug post) route_slug) posts with
  | Some post => Article post (BlogPost.renderContent (content post))
  | None => NotFound
  end.

End Pages.

(** What [HomePage] renders: the navigation and, under it, the list. *)
Record HomeView := mkHome { nav : list (string * bool); main : ListView }.

(** [HomePage] for the value of the query parameter.  It renders
    [CategoryNav], whose [getCategories()] loads the posts, and then
    [BlogList], which loads them again.  The parser keeps a cache between
    calls, so the two loads need not meet the same behaviour of the parser:
    [matter_nav] is the parser as the load of [CategoryNav] meets it,
    [matter_list] the parser as the later load of [BlogList] meets it. *)
Definition HomePage
    (matter_nav matter_list : string -> string + (Data * string))
    (Date_parse : string -> option Z) (blogContents : list (string * string))
    (param : option string) : HomeView :=
  let category := home_category param in
  {| nav := CategoryNav matter_nav Date_parse blogContents category;
     main := BlogList matter_list Date_parse blogContents (list_category category) |}.

End App.

(** ** Sample content

    [gray-matter] and [Date.parse] are library code: the properties below
    hold for every parser and every table.  The examples run the program on
    a few documents whose parse results are given here. *)

Module Sample.
Import BlogLoader.

Definition matter (content : string) : string + (Data * string) :=
  if String.eqb content "web" then
    inr ({| data_title := Some "My Journey into Web Development";
            data_date := Some "2024-02-20";
            data_excerpt := Some "Reflecting on how I got started.";
            data_category := Some "General";
            data_tags := Some ["web"; "career"] |}, "Web development has been a journey.")
  else if String.eqb content "s3" then
    inr ({| data_title := Some "Automated S3 Security";
            data_date := Some "2025-02-28";
            data_excerpt := Some "Automated security controls for S3.";
            data_category := Some "Automation";
            data_tags := None |}, "S3 bucket misconfigurations.")
  else if String.eqb content "backup" then
    inr ({| data_title := Some "AWS Backup Mastery";
            data_date := Some "2025-05-07";
            data_excerpt := Some "Advanced AWS Backup techniques.";
            data_category := Some "AWS Backup";
            data_tags := None |}, "## Introduction")
  else if String.eqb content "notes" then
    inr ({| data_title := Some "Notes";
            data_date := Some "2025-08-15";
            data_excerpt := None;
            data_category := None;
            data_tags := None |}, "Short notes.")
  else if String.eqb content "overview" then
    inr ({| data_title := Some "Overview";
            data_date := Some "2025-08-15";
            data_excerpt := None;
            data_category := Some "All";
            data_tags := None |}, "Everything at a glance.")
  else inl "YAMLException: bad indentation".

Definition Date_parse (s : string) : option Z :=
  if String.eqb s "2024-02-20" then Some 1708387200000%Z
  else if String.eqb s "2025-02-28" then Some 1740700800000%Z
  else if String.eqb s "2025-05-07" then Some 1746576000000%Z
  else if String.eqb s "2025-08-15" then Some 1755216000000%Z
  else None.

Definition blogContents : list (string * string) :=
  [("web-development-journey.md", "web");
   ("automated-s3-security.md", "s3");
   ("aws-backup-mastery.md", "backup");
   ("notes.md", "notes")].

(** A table whose first document does not parse. *)
Definition brokenContents : list (string * string) :=
  [("welcome.md", "title: [unclosed");
   ("web-development-journey.md", "web")].

(** A table with a post in a category named like the sentinel. *)
Definition overviewContents : list (string * string) :=
  [("overview.md", "overview");
   ("web-development-journey.md", "web")].

(** The parser as a later load meets it when the cache of the parser
    holds the documents of an earlier load: a document that failed before
    now comes back unparsed, without data and with the whole text as body. *)
Definition matter_again (content : string) : string + (Data * string) :=
  match matter content with
  | inl _ =>
      inr ({| data_title := None; data_date := None; data_excerpt := None;
              data_category := None; data_tags := None |}, content)
  | inr parsed => inr parsed
  end.

(** A table whose second document does not parse. *)
Definition mixedContents : list (string * string) :=
  [("web-development-journey.md", "web");
   ("welcome.md", "title: [unclosed");
   ("automated-s3-security.md", "s3")].

(** Two documents with the same date. *)
Definition sameDay : list (string * string) :=
  [("notes.md", "notes"); ("overview.md", "overview")].

(** Two states of the renderer: a paragraph and a list pending under a
    heading, and an open code block. *)
Definition pending : BlogPost.State :=
  {| BlogPost.elements := [BlogPost.h2 (BlogPost.IndexKey "h2" 0) "Title"];
     BlogPost.currentParagraph := ["Some"; "text"];
     BlogPost.inCodeBlock := false;
     BlogPost.codeLines := [];
     BlogPost.listItems := [BlogPost.li (BlogPost.IndexKey "li" 1) "item"] |}.

Definition in_code : BlogPost.State :=
  {| BlogPost.elements := [BlogPost.h2 (BlogPost.IndexKey "h2" 0) "Title"];
     BlogPost.currentParagraph := [];
     BlogPost.inCodeBlock := true;
     BlogPost.codeLines := ["let x = 1;"];
     BlogPost.listItems := [] |}.

(** The line feed as a string. *)
Definition nl : string := String Js.newline "".

End Sample.

(** * Properties *)

(** ** Facts about the built-ins *)

Module JsFacts.
Import Js.

Lemma drop_append (a r : string) : drop (String.length a) (a ++ r) = r.
Proof. induction a as [|c a IH]; simpl; auto. Qed.

Lemma prefix_append (a r : string) : String.prefix a (a ++ r) = true.
Proof.
  induction a as [|c a IH]; simpl.
  - destruct r; reflexivity.
  - destruct (ascii_dec c c); [exact IH | congruence].
Qed.

(** Replacing a prefix by the empty string removes it. *)
Lemma replace_prefix (a r : string) : replace a "" (a ++ r) = r.
Proof.
  destruct a as [|c a]; simpl.
  - destruct r; reflexivity.
  - destruct (ascii_dec c c) as [_|n]; [|congruence].
    rewrite prefix_append. simpl. apply drop_append.
Qed.

Section SortFacts.
Context {A : Type}.
Variable cmp : A -> A -> option Z.

  (** [before x y]: the sort leaves [x] in front of [y]. *)
Definition before (x y : A) : Prop := (sortCompare cmp x y <= 0)%Z.

Lemma insert_perm (x : A) (l : list A) : Permutation (insert cmp x l) (x :: l).
Proof.
    induction l as [|y l IH]; simpl; [reflexivity|].
    destruct (sortCompare cmp x y <=? 0)%Z; [reflexivity|].
    rewrite IH. apply perm_swap.
Qed.

Lemma sort_perm (l : list A) : Permutation (sort cmp l) l.
Proof.
    induction l as [|x l IH]; simpl; [constructor|].
    rewrite insert_perm. now constructor.
Qed.

Lemma sort_In (l : list A) (x : A) : In x (sort cmp l) <-> In x l.
Proof.
    split; apply Permutation_in; [|symmetry]; apply sort_perm.
Qed.

Lemma insert_front (x : A) (l : list A) :
    Forall (before x) l -> insert cmp x l = x :: l.
Proof.
    intros H. destruct l as [|y l]; simpl; [reflexivity|].
    inversion_clear H as [|? ? Hy _]. unfold before in Hy.
    apply Z.leb_le in Hy. now rewrite Hy.
Qed.

Hypothesis before_total : forall x y, before x y \/ before y x.
Hypothesis before_trans : forall x y z, before x y -> before y z -> before x z.

Lemma insert_sorted (x : A) (l : list A) :
    StronglySorted before l -> StronglySorted before (insert cmp x l).
Proof.
    induction 1 as [|y l Hs IH Hy]; simpl.
    - repeat constructor.
    - destruct (sortCompare cmp x y <=? 0)%Z eqn:E.
      + apply Z.leb_le in E. constructor; [now constructor|].
        constructor; [exact E|].
        eapply Forall_impl; [|exact Hy]. intros z Hz. now apply before_trans with y.
      + apply Z.leb_gt in E. constructor; [exact IH|].
        apply (Permutation_Forall (Permutation_sym (insert_perm x l))).
        constructor; [|exact Hy].
        destruct (before_total y x) as [H|H]; [exact H|unfold before in H; lia].
    Qed.

Lemma sort_sorted (l : list A) : StronglySorted before (sort cmp l).
Proof.
    induction l as [|x l IH]; simpl; [constructor|now apply insert_sorted].
Qed.

  (** Stability: filtering commutes with the sort. *)
Lemma filter_insert (f : A -> bool) (x : A) (l : list A) :
    StronglySorted before l ->
    filter f (insert cmp x l) =
    if f x then insert cmp x (filter f l) else filter f l.
Proof.
    induction 1 as [|y l Hs IH Hy]; simpl.
    - destruct (f x); reflexivity.
    - destruct (sortCompare cmp x y <=? 0)%Z eqn:E; simpl.
      + destruct (f x) eqn:Fx; [|reflexivity].
        destruct (f y) eqn:Fy; simpl; [now rewrite E|].
        symmetry. apply insert_front.
        apply Z.leb_le in E.
        apply Forall_forall. intros z Hz. apply filter_In in Hz as [Hz _].
        rewrite Forall_forall in Hy. apply before_trans with y; auto.
      + rewrite IH. destruct (f y) eqn:Fy; simpl.
        * destruct (f x); simpl; [now rewrite E|reflexivity].
        * reflexivity.
Qed.

Lemma filter_sort (f : A -> bool) (l : list A) :
    filter f (sort cmp l) = sort cmp (filter f l).
Proof.
    induction l as [|x l IH]; simpl; [reflexivity|].
    rewrite filter_insert by apply sort_sorted.
    rewrite IH. destruct (f x); reflexivity.
Qed.
End SortFacts.

(** The sort only consults the comparator on the elements of the array. *)
Lemma insert_ext {A : Type} (cmp cmp' : A -> A -> option Z) (x : A) (l : list A) :
  (forall y, In y l -> cmp x y = cmp' x y) ->
  insert cmp x l = insert cmp' x l.
Proof.
  induction l as [|y l IH]; intros H; simpl; [reflexivity|].
  unfold sortCompare. rewrite (H y) by now left.
  rewrite IH by (intros; apply H; now right). reflexivity.
Qed.

Lemma sort_ext {A : Type} (cmp cmp' : A -> A -> option Z) (l : list A) :
  (forall x y, In x l -> In y l -> cmp x y = cmp' x y) ->
  sort cmp l = sort cmp' l.
Proof.
  induction l as [|x l IH]; intros H; simpl; [reflexivity|].
  rewrite IH by (intros; apply H; now right).
  apply insert_ext. intros y Hy. apply sort_In in Hy.
  apply H; [now left|now right].
Qed.

Lemma filter_Permutation {A : Type} (f : A -> bool) (l l' : list A) :
  Permutation l l' -> Permutation (filter f l) (filter f l').
Proof.
  induction 1 as [|x l l' _ IH|x y l|l l' l'' _ IH1 _ IH2]; simpl.
  - constructor.
  - destruct (f x); [now constructor|exact IH].
  - destruct (f x), (f y); try reflexivity. apply perm_swap.
  - now transitivity (filter f l').
Qed.


(** The order of the code units is a total order on strings. *)
Lemma ascii_compare_refl (c : ascii) : Ascii.compare c c = Eq.
Proof. unfold Ascii.compare. apply N.compare_refl. Qed.

Lemma string_compare_refl (s : string) : String.compare s s = Eq.
Proof. induction s as [|c s IH]; simpl; [reflexivity|]. now rewrite ascii_compare_refl. Qed.

Lemma string_lt_trans (a b c : string) :
  String.compare a b = Lt -> String.compare b c = Lt -> String.compare a c = Lt.
Proof.
  revert b c. induction a as [|x a IH]; intros [|y b] [|z c]; simpl;
    try discriminate; try reflexivity.
  destruct (Ascii.compare x y) eqn:E1; try discriminate;
    destruct (Ascii.compare y z) eqn:E2; try discriminate; intros H1 H2.
  - apply Ascii.compare_eq_iff in E1, E2. subst.
    rewrite ascii_compare_refl. now apply IH with b.
  - apply Ascii.compare_eq_iff in E1. subst. now rewrite E2.
  - apply Ascii.compare_eq_iff in E2. subst. now rewrite E1.
  - unfold Ascii.compare in *.
    rewrite N.compare_lt_iff in E1, E2.
    assert (E3 : (N_of_ascii x < N_of_ascii z)%N) by lia.
    rewrite <- N.compare_lt_iff in E3. now rewrite E3.
Qed.

Lemma before_default_leb (x y : string) :
  before defaultCompare x y <-> String.leb x y = true.
Proof.
  unfold before, sortCompare, defaultCompare, String.leb.
  destruct (String.compare x y); split; intros; try reflexivity; try lia; discriminate.
Qed.

Lemma before_default_total (x y : string) :
  before defaultCompare x y \/ before defaultCompare y x.
Proof. rewrite !before_default_leb. apply String.leb_total. Qed.

Lemma before_default_trans (x y z : string) :
  before defaultCompare x y -> before defaultCompare y z -> before defaultCompare x z.
Proof.
  rewrite !before_default_leb. unfold String.leb.
  destruct (String.compare x y) eqn:E1; try discriminate;
    destruct (String.compare y z) eqn:E2; try discriminate; intros _ _.
  - apply String.compare_eq_iff in E1. subst. now rewrite E2.
  - apply String.compare_eq_iff in E1. subst. now rewrite E2.
  - apply String.compare_eq_iff in E2. subst. now rewrite E1.
  - now rewrite (string_lt_trans x y z).
Qed.

(** A sorted array without duplicates is strictly increasing. *)
Lemma sorted_strict (l : list string) :
  StronglySorted (before defaultCompare) l -> NoDup l ->
  StronglySorted (fun a b => String.compare a b = Lt) l.
Proof.
  induction 1 as [|x l Hs IH Hx]; intros Hn; constructor;
    inversion_clear Hn as [|? ? Hnot Hn'].
  - now apply IH.
  - rewrite Forall_forall in *. intros y Hy.
    specialize (Hx y Hy). apply before_default_leb in Hx. unfold String.leb in Hx.
    destruct (String.compare x y) eqn:E; [|reflexivity|discriminate].
    apply String.compare_eq_iff in E. subst. contradiction.
Qed.

(** [distinct] keeps every value once. *)
Lemma set_add_In (x y : string) (seen : list string) :
  In y (set_add x seen) <-> y = x \/ In y seen.
Proof.
  induction seen as [|z seen IH]; simpl.
  - intuition.
  - destruct (String.eqb_spec x z) as [->|Hne]; simpl.
    + intuition.
    + rewrite IH. intuition.
Qed.

Lemma set_add_NoDup (x : string) (seen : list string) :
  NoDup seen -> NoDup (set_add x seen).
Proof.
  induction 1 as [|z seen Hz Hn IH]; simpl.
  - constructor; [intros []|constructor].
  - destruct (String.eqb_spec x z) as [->|Hne].
    + now constructor.
    + constructor; [|exact IH].
      rewrite set_add_In. intros [->|H]; [congruence|contradiction].
Qed.

Lemma fold_set_add (a seen : list string) :
  NoDup seen ->
  NoDup (fold_left (fun seen x => set_add x seen) a seen) /\
  (forall y, In y (fold_left (fun seen x => set_add x seen) a seen) <-> In y seen \/ In y a).
Proof.
  revert seen. induction a as [|x a IH]; intros seen Hn; simpl.
  - split; [exact Hn|intuition].
  - destruct (IH (set_add x seen) (set_add_NoDup x seen Hn)) as [H1 H2].
    split; [exact H1|]. intros y. rewrite H2, set_add_In. intuition.
Qed.

Lemma distinct_NoDup (a : list string) : NoDup (distinct a).
Proof. apply fold_set_add. constructor. Qed.

Lemma distinct_In (a : list string) (y : string) : In y (distinct a) <-> In y a.
Proof.
  unfold distinct. destruct (fold_set_add a [] (NoDup_nil _)) as [_ H].
  rewrite H. simpl. intuition.
Qed.

End JsFacts.

(** ** The loader *)

Module LoaderFacts.
Import Js JsFacts BlogLoader.

Section Facts.
Variable matter : string -> string + (Data * string).
Variable Date_parse : string -> option Z.

Local Abbreviation load := (loadBlogPosts matter Date_parse).
Local Abbreviation run := (for_entries matter).
Local Arguments loop_body : simpl never.

  (** The filter [post.category === c] as a function on posts. *)
Definition in_category (c : string) (post : Post) : bool :=
    String.eqb (category post) c.

  (** [post] is the post that the loop builds from [entry]. *)
Definition post_of_entry (entry : string * string) (post : Post) : Prop :=
    exists n data markdown,
      matter (snd entry) = inr (data, markdown) /\
      post = build_post n (fst entry) data markdown.

Lemma loop_body_inr (cat : option string) (filename content : string)
      (st : LoadState) (data : Data) (markdown : string) :
    matter content = inr (data, markdown) ->
    loop_body matter cat (filename, content) st =
    inr {| posts :=
             if falsy cat
                || strict_eq (category (build_post (next_id st) filename data markdown)) cat
             then posts st ++ [build_post (next_id st) filename data markdown]
             else posts st;
           next_id := (next_id st + 1)%Z |}.
Proof. intros H. unfold loop_body. now rewrite H. Qed.

Lemma loop_body_inl (cat : option string) (filename content : string)
      (st : LoadState) (error : string) :
    matter content = inl error ->
    loop_body matter cat (filename, content) st = inl error.
Proof. intros H. unfold loop_body. now rewrite H. Qed.

  (** The loop leaves at the first document that does not parse. *)
Lemma run_until_failure (cat : option string) (before : list (string * string))
      (filename content error : string) (rest : list (string * string)) :
    all_parse matter before = true ->
    matter content = inl error ->
    forall st,
      run cat (before ++ (filename, content) :: rest) st = (fst (run cat before st), Some error)
      /\ snd (run cat before st) = None.
Proof.
    intros Hall Hbad. induction before as [|[fn c] before IH]; intros st; simpl.
    - now rewrite (loop_body_inl _ _ _ _ _ Hbad).
    - simpl in Hall. apply andb_prop in Hall as [Hc Hall]. unfold parses in Hc.
      destruct (matter c) as [e|[data markdown]] eqn:E; [discriminate|].
      rewrite (loop_body_inr _ _ _ _ _ _ E). now apply IH.
Qed.

  (** Without a filter, a table that parses yields its posts in order,
      numbered from the counter on. *)
Lemma run_all (entries : list (string * string)) :
    all_parse matter entries = true ->
    forall st, exists built,
      posts (fst (run None entries st)) = posts st ++ built
      /\ Forall2 post_of_entry entries built
      /\ map id built =
         map (fun k => (next_id st + Z.of_nat k)%Z) (seq 0 (List.length entries)).
Proof.
    induction entries as [|[fn c] entries IH]; intros Hall st; simpl.
    - exists []. rewrite app_nil_r. repeat split; constructor.
    - simpl in Hall. apply andb_prop in Hall as [Hc Hall]. unfold parses in Hc.
      destruct (matter c) as [e|[data markdown]] eqn:E; [discriminate|].
      rewrite (loop_body_inr _ _ _ _ _ _ E). simpl.
      destruct (IH Hall {| posts := posts st ++ [build_post (next_id st) fn data markdown];
                          next_id := (next_id st + 1)%Z |}) as (built & H1 & H2 & H3).
      exists (build_post (next_id st) fn data markdown :: built).
      simpl in *. rewrite H1, <- app_assoc. simpl. repeat split.
      + constructor; [|exact H2]. exists (next_id st), data, markdown. now split.
      + f_equal; [lia|]. rewrite H3, <- seq_shift, map_map.
        apply map_ext. intros k. lia.
Qed.

  (** Every post of the result was built from a document of the table. *)
Lemma run_invariant (Q : Post -> Prop) (cat : option string)
      (entries : list (string * string)) :
    (forall n filename content data markdown,
        In (filename, content) entries ->
        matter content = inr (data, markdown) ->
        Q (build_post n filename data markdown)) ->
    forall st, Forall Q (posts st) -> Forall Q (posts (fst (run cat entries st))).
Proof.
    induction entries as [|[fn c] entries IH]; intros HQ st Hst; simpl; [exact Hst|].
    destruct (matter c) as [e|[data markdown]] eqn:E.
    - now rewrite (loop_body_inl _ _ _ _ _ E).
    - rewrite (loop_body_inr _ _ _ _ _ _ E).
      apply IH; [intros; eapply HQ; eauto; now right|]. simpl.
      destruct (falsy cat || strict_eq _ cat); [|exact Hst].
      apply Forall_app. split; [exact Hst|]. constructor; [|constructor].
      eapply HQ; eauto. now left.
Qed.

  (** A non-empty filter keeps, of the posts of the unfiltered loop, the
      ones in its category. *)
Lemma run_filter (c : string) (entries : list (string * string)) :
    c <> "" ->
    forall st1 st2,
      posts st1 = filter (in_category c) (posts st2) ->
      next_id st1 = next_id st2 ->
      posts (fst (run (Some c) entries st1))
      = filter (in_category c) (posts (fst (run None entries st2)))
      /\ snd (run (Some c) entries st1) = snd (run None entries st2).
Proof.
    intros Hc. apply String.eqb_neq in Hc.
    induction entries as [|[fn content] entries IH]; intros st1 st2 Hp Hn; simpl.
    - now split.
    - destruct (matter content) as [e|[data markdown]] eqn:E.
      + rewrite !(loop_body_inl _ _ _ _ _ E). now split.
      + rewrite !(loop_body_inr _ _ _ _ _ _ E). apply IH; simpl; [|congruence].
        rewrite Hc, Hn. simpl. rewrite filter_app. simpl.
        unfold in_category at 2. simpl.
        destruct (String.eqb (or_string (data_category data) "General") c);
          [now rewrite Hp | now rewrite app_nil_r].
Qed.

  (** The empty string is a falsy filter. *)
Lemma run_empty_filter (entries : list (string * string)) (st : LoadState) :
    run (Some "") entries st = run None entries st.
Proof.
    revert st. induction entries as [|[fn c] entries IH]; intros st; simpl; [reflexivity|].
    unfold loop_body. destruct (matter c) as [e|[data markdown]]; [reflexivity|].
    simpl. apply IH.
Qed.

  (** The time value used as the sort key when the date is valid. *)
Definition time_value (post : Post) : Z :=
    match new_Date Date_parse (date post) with
    | Some t => t
    | None => 0%Z
    end.

Definition by_time (a b : Post) : option Z := Some (time_value b - time_value a)%Z.

Definition valid (post : Post) : Prop :=
    exists t, new_Date Date_parse (date post) = Some t.

Lemma compare_date_valid (l : list Post) :
    Forall valid l ->
    sort (compare_date Date_parse) l = sort by_time l.
Proof.
    intros H. apply sort_ext. intros x y Hx Hy.
    rewrite Forall_forall in H.
    destruct (H x Hx) as [tx Ex], (H y Hy) as [ty Ey].
    unfold compare_date, by_time, time_value. now rewrite Ex, Ey.
Qed.

Lemma by_time_total (x y : Post) : before by_time x y \/ before by_time y x.
Proof. unfold before, sortCompare, by_time. lia. Qed.

Lemma by_time_trans (x y z : Post) :
    before by_time x y -> before by_time y z -> before by_time x z.
Proof. unfold before, sortCompare, by_time. lia. Qed.

Lemma loaded_valid (entries : list (string * string)) (cat : option string) :
    valid_dates matter Date_parse entries = true ->
    Forall valid (posts (fst (run cat entries {| posts := []; next_id := 1 |}))).
Proof.
    intros Hv. apply run_invariant; [|constructor].
    intros n fn c data markdown Hin E.
    unfold valid_dates in Hv. rewrite forallb_forall in Hv.
    specialize (Hv _ Hin). simpl in Hv. rewrite E in Hv.
    unfold valid. simpl.
    destruct (new_Date Date_parse (data_date data)) as [t|]; [now exists t|discriminate].
Qed.

Lemma loadBlogPosts_unfold (entries : list (string * string)) (cat : option string) :
    load entries cat =
    sort (compare_date Date_parse)
         (posts (fst (run cat entries {| posts := []; next_id := 1 |}))).
Proof.
    unfold loadBlogPosts, loadBlogPosts_run.
    destruct (for_entries matter cat entries _) as [st thrown]. reflexivity.
Qed.

Lemma console_unfold (entries : list (string * string)) (cat : option string) :
    console_of matter Date_parse entries cat =
    match snd (run cat entries {| posts := []; next_id := 1 |}) with
    | Some error => [ {| log_message := "Error loading blog posts:"; log_error := error |} ]
    | None => []
    end.
Proof.
    unfold console_of, loadBlogPosts_run.
    destruct (for_entries matter cat entries _) as [st thrown]. reflexivity.
Qed.

(** The loop never removes a post. *)
Lemma run_keeps (cat : option string) (entries : list (string * string)) (q : Post) :
  forall st, In q (posts st) -> In q (posts (fst (for_entries matter cat entries st))).
Proof.
  induction entries as [|[fn text] entries IH]; intros st Hq; simpl; [exact Hq|].
  destruct (matter text) as [e|[data markdown]] eqn:E.
  - now rewrite (loop_body_inl _ _ _ _ _ E).
  - rewrite (loop_body_inr _ _ _ _ _ _ E). apply IH. simpl.
    destruct (falsy cat || strict_eq _ cat); [|exact Hq].
    apply in_or_app. now left.
Qed.

(** After documents that parse, the loop goes on with the rest of the table. *)
Lemma run_append (cat : option string) (front rest : list (string * string)) :
  all_parse matter front = true ->
  forall st, run cat (front ++ rest) st = run cat rest (fst (run cat front st)).
Proof.
  induction front as [|[fn text] front IH]; intros Hall st; simpl; [reflexivity|].
  simpl in Hall. apply andb_prop in Hall as [Hc Hall]. unfold parses in Hc.
  destruct (matter text) as [e|[data markdown]] eqn:E; [discriminate|].
  rewrite (loop_body_inr _ _ _ _ _ _ E). now apply IH.
Qed.

End Facts.

Lemma sorted_adjacent {A : Type} (R : A -> A -> Prop) (l : list A) :
  StronglySorted R l ->
  forall i a b, nth_error l i = Some a -> nth_error l (S i) = Some b -> R a b.
Proof.
  induction 1 as [|x l Hs IH Hx]; intros i a b Ha Hb.
  - destruct i; discriminate.
  - destruct i as [|i]; simpl in *.
    + injection Ha as <-. rewrite Forall_forall in Hx. apply Hx.
      destruct l; [discriminate|]. simpl in Hb. injection Hb as <-. now left.
    + eapply IH; eauto.
Qed.

End LoaderFacts.

Module LoaderSpec.
Import Js JsFacts BlogLoader LoaderFacts.

Section Claims.
Variable matter : string -> string + (Data * string).
Variable Date_parse : string -> option Z.

Local Abbreviation load := (loadBlogPosts matter Date_parse).

  (** C1, as the code has it: [loadBlogPosts] never throws, but the [try]
      encloses the whole loop.  When the document [content] is the first
      one that [matter] rejects, the call returns what loading only the
      documents in front of it returns, and logs the failure once: the
      failing document and every document behind it are left out.  Each
      document in front of it yields exactly one post (without a filter),
      numbered from 1 in the order of the table. *)
Theorem load_stops_at_first_failure
      (front : list (string * string)) (filename text error : string)
      (rest : list (string * string)) (cat : option string) :
    all_parse matter front = true ->
    matter text = inl error ->
    loadBlogPosts_run matter Date_parse (front ++ (filename, text) :: rest) cat
    = (load front cat,
       [ {| log_message := "Error loading blog posts:"; log_error := error |} ])
    /\ console_of matter Date_parse front cat = []
    /\ exists built,
         Permutation (load front None) built
         /\ Forall2 (post_of_entry matter) front built
         /\ map id built = map Z.of_nat (seq 1 (List.length front)).
Proof.
    intros Hall Hbad.
    destruct (run_until_failure matter cat front filename text error rest Hall Hbad
                {| posts := []; next_id := 1 |}) as [Hrun Hnone].
    split; [|split].
    - rewrite loadBlogPosts_unfold. unfold loadBlogPosts_run. now rewrite Hrun.
    - rewrite console_unfold. now rewrite Hnone.
    - destruct (run_all matter front Hall {| posts := []; next_id := 1 |})
        as (built & H1 & H2 & H3).
      exists built. split; [|split; [exact H2|]].
      + rewrite loadBlogPosts_unfold, H1. apply sort_perm.
      + rewrite H3, <- seq_shift, map_map. apply map_ext. intros k. simpl next_id. lia.
Qed.

  (** C2: when every date of the table is a valid date, the result is
      sorted by date, the latest first, whatever the filter: of two adjacent
      posts the first has the later or the same time value. *)
Theorem loadBlogPosts_sorted_by_date
      (entries : list (string * string)) (cat : option string) :
    valid_dates matter Date_parse entries = true ->
    forall i p1 p2,
      nth_error (load entries cat) i = Some p1 ->
      nth_error (load entries cat) (S i) = Some p2 ->
      exists t1 t2,
        new_Date Date_parse (date p1) = Some t1
        /\ new_Date Date_parse (date p2) = Some t2
        /\ (t1 >= t2)%Z.
Proof.
    intros Hv i p1 p2 H1 H2.
    pose proof (loaded_valid matter Date_parse entries cat Hv) as Hvalid.
    rewrite loadBlogPosts_unfold in H1, H2.
    assert (Hin : forall q, In q (sort (compare_date Date_parse)
                (posts (fst (for_entries matter cat entries {| posts := []; next_id := 1 |}))))
              -> valid Date_parse q).
    { intros q Hq. apply sort_In in Hq. rewrite Forall_forall in Hvalid. now apply Hvalid. }
    destruct (Hin p1 (nth_error_In _ _ H1)) as [t1 E1].
    destruct (Hin p2 (nth_error_In _ _ H2)) as [t2 E2].
    exists t1, t2. split; [exact E1|split; [exact E2|]].
    rewrite (compare_date_valid Date_parse _ Hvalid) in H1, H2.
    pose proof (sorted_adjacent _ _
                  (sort_sorted (by_time Date_parse) (by_time_total Date_parse)
                     (by_time_trans Date_parse) _) i p1 p2 H1 H2) as Hb.
    unfold before, sortCompare, by_time, time_value in Hb.
    rewrite E1, E2 in Hb. lia.
Qed.

  (** C3, amended: for every non-empty string [c], [loadBlogPosts(c)]
      holds exactly the posts of [loadBlogPosts(null)] whose category is
      [c], each once, and no other post; when the dates are valid it is
      that subsequence, in the same order. *)
Theorem loadBlogPosts_filter (entries : list (string * string)) (c : string) :
    c <> "" ->
    Forall (fun post => category post = c) (load entries (Some c))
    /\ Permutation (load entries (Some c)) (filter (in_category c) (load entries None))
    /\ (valid_dates matter Date_parse entries = true ->
        load entries (Some c) = filter (in_category c) (load entries None)).
Proof.
    intros Hc.
    destruct (run_filter matter c entries Hc
                {| posts := []; next_id := 1 |} {| posts := []; next_id := 1 |}
                eq_refl eq_refl) as [Hposts _].
    assert (Hperm : Permutation (load entries (Some c))
                      (filter (in_category c) (load entries None))).
    { rewrite !loadBlogPosts_unfold, Hposts.
      rewrite sort_perm. apply filter_Permutation. symmetry. apply sort_perm. }
    split; [|split; [exact Hperm|]].
    - apply (Permutation_Forall (Permutation_sym Hperm)).
      apply Forall_forall. intros post Hin. apply filter_In in Hin as [_ Hin].
      now apply String.eqb_eq.
    - intros Hv. rewrite !loadBlogPosts_unfold, Hposts.
      rewrite (compare_date_valid Date_parse _ (loaded_valid matter Date_parse entries None Hv)).
      rewrite filter_sort by (apply by_time_total || apply by_time_trans).
      apply compare_date_valid.
      apply Forall_forall. intros post Hin. apply filter_In in Hin as [Hin _].
      pose proof (loaded_valid matter Date_parse entries None Hv) as H.
      rewrite Forall_forall in H. now apply H.
Qed.

  (** C4, amended: [getCategories()] is ["All"] followed by the categories
      of the posts of [loadBlogPosts(null)], each once, in increasing order
      of their code units.  The whole result has no duplicate when no post
      is in a category named ["All"]. *)
Theorem getCategories_shape (entries : list (string * string)) :
    exists cats,
      getCategories matter Date_parse entries = "All" :: cats
      /\ StronglySorted (fun a b => String.compare a b = Lt) cats
      /\ NoDup cats
      /\ (forall c, In c cats <-> exists post, In post (load entries None) /\ category post = c)
      /\ ((forall post, In post (load entries None) -> category post <> "All") ->
          NoDup (getCategories matter Date_parse entries)).
Proof.
    set (names := distinct (map category (load entries None))).
    assert (Hn : NoDup (sort defaultCompare names)).
    { apply (Permutation_NoDup (Permutation_sym (sort_perm defaultCompare names))).
      apply distinct_NoDup. }
    assert (Hin : forall c, In c (sort defaultCompare names) <->
                            exists post, In post (load entries None) /\ category post = c).
    { intros c. rewrite sort_In. unfold names. rewrite distinct_In, in_map_iff.
      split; intros (post & H1 & H2); exists post; auto. }
    exists (sort defaultCompare names). split; [reflexivity|]. split; [|split; [exact Hn|split]].
    - apply sorted_strict; [|exact Hn].
      apply sort_sorted; [apply before_default_total|apply before_default_trans].
    - exact Hin.
    - intros Hall. unfold getCategories. fold names. constructor; [|exact Hn].
      intros H. apply Hin in H as (post & H1 & H2). now apply (Hall post).
Qed.

  (** C8: the post built from a document takes [title], [date], [excerpt]
      and the body as [matter] returns them; its category is ["General"]
      when the front-matter has none, its tags are empty when the
      front-matter has none; a category that is not empty and the tags that
      are present are taken as they are. *)
Theorem constructed_post_defaults
      (cat : option string) (filename text : string) (st : LoadState)
      (data : Data) (markdown : string) :
    matter text = inr (data, markdown) ->
    exists post,
      loop_body matter cat (filename, text) st
      = inr {| posts := if falsy cat || strict_eq (category post) cat
                        then posts st ++ [post] else posts st;
               next_id := (next_id st + 1)%Z |}
      /\ id post = next_id st
      /\ (data_category data = None -> category post = "General")
      /\ (data_tags data = None -> tags post = [])
      /\ title post = data_title data
      /\ date post = data_date data
      /\ excerpt post = data_excerpt data
      /\ content post = markdown
      /\ (forall c, data_category data = Some c -> c <> "" -> category post = c)
      /\ (forall t, data_tags data = Some t -> tags post = t).
Proof.
    intros E. exists (build_post (next_id st) filename data markdown).
    split; [now apply loop_body_inr|]. simpl.
    repeat split; try (intros H; now rewrite H).
    - intros c H Hc. rewrite H. simpl. apply String.eqb_neq in Hc. now rewrite Hc.
    - intros t H. now rewrite H.
Qed.

  (** C10: the empty string as filter is no filter: the call returns, and
    logs, what [loadBlogPosts(null)] does.  It returns the post of every
    document up to the first one that does not parse, whatever the
    category of the post; and since the category of a post is never
    empty, no returned post is in the category [""]. *)
Theorem empty_filter_is_no_filter (entries : list (string * string)) :
  loadBlogPosts_run matter Date_parse entries (Some "")
  = loadBlogPosts_run matter Date_parse entries None
  /\ (forall front rest,
         entries = front ++ rest -> all_parse matter front = true ->
         exists built,
           Forall2 (post_of_entry matter) front built
           /\ map id built = map Z.of_nat (seq 1 (List.length front))
           /\ forall post, In post built -> In post (load entries (Some "")))
  /\ (forall post, In post (load entries (Some "")) -> category post <> "").
Proof.
  split; [|split].
  - unfold loadBlogPosts_run. now rewrite run_empty_filter.
  - intros front rest -> Hall.
    destruct (run_all matter front Hall {| posts := []; next_id := 1 |})
      as (built & H1 & H2 & H3).
    exists built. split; [exact H2|split].
    + rewrite H3, <- seq_shift, map_map. apply map_ext. intros k. simpl next_id. lia.
    + intros post Hin. rewrite loadBlogPosts_unfold, run_empty_filter.
      apply sort_In. rewrite (run_append matter None front rest Hall).
      apply run_keeps. rewrite H1. exact Hin.
  - intros post Hin. rewrite loadBlogPosts_unfold in Hin. apply sort_In in Hin.
    assert (H : Forall (fun q => category q <> "")
                  (posts (fst (for_entries matter (Some "") entries
                                 {| posts := []; next_id := 1 |})))).
    { apply run_invariant; [|constructor].
      intros n fn text data markdown _ _. simpl. unfold or_string.
      destruct (data_category data) as [c|]; [|discriminate].
      destruct (String.eqb_spec c ""); [discriminate|assumption]. }
    rewrite Forall_forall in H. exact (H post Hin).
Qed.

End Claims.

(** *** The loader on the sample content *)

Lemma load_stops_at_first_failure_witness :
  loadBlogPosts_run Sample.matter Sample.Date_parse
    ([("web-development-journey.md", "web")]
       ++ ("welcome.md", "title: [unclosed") :: [("notes.md", "notes")]) None
  = (loadBlogPosts Sample.matter Sample.Date_parse
       [("web-development-journey.md", "web")] None,
     [ {| log_message := "Error loading blog posts:";
          log_error := "YAMLException: bad indentation" |} ]).
Proof.
  exact (proj1 (load_stops_at_first_failure Sample.matter Sample.Date_parse
                  [("web-development-journey.md", "web")]
                  "welcome.md" "title: [unclosed" "YAMLException: bad indentation"
                  [("notes.md", "notes")] None eq_refl eq_refl)).
Defined.

(** C1 as stated fails: the second document of [brokenContents] parses,
    but the first one does not, and the result holds no post for either. *)
Lemma later_document_lost :
  ~ (forall filename text,
        In (filename, text) Sample.brokenContents ->
        parses Sample.matter text = true ->
        exists post,
          In post (loadBlogPosts Sample.matter Sample.Date_parse Sample.brokenContents None)
          /\ slug post = Js.replace ".md" "" filename).
Proof.
  intros H.
  destruct (H "web-development-journey.md" "web") as (post & Hin & _).
  - right. left. reflexivity.
  - reflexivity.
  - exact Hin.
Qed.

Lemma loadBlogPosts_sorted_by_date_witness :
  exists p1 p2 t1 t2,
    nth_error (loadBlogPosts Sample.matter Sample.Date_parse Sample.blogContents None) 0 = Some p1
    /\ nth_error (loadBlogPosts Sample.matter Sample.Date_parse Sample.blogContents None) 1 = Some p2
    /\ new_Date Sample.Date_parse (date p1) = Some t1
    /\ new_Date Sample.Date_parse (date p2) = Some t2
    /\ (t1 >= t2)%Z.
Proof.
  destruct (nth_error (loadBlogPosts Sample.matter Sample.Date_parse Sample.blogContents None) 0)
    as [p1|] eqn:E1; [|discriminate E1].
  destruct (nth_error (loadBlogPosts Sample.matter Sample.Date_parse Sample.blogContents None) 1)
    as [p2|] eqn:E2; [|discriminate E2].
  destruct (loadBlogPosts_sorted_by_date Sample.matter Sample.Date_parse
              Sample.blogContents None eq_refl 0 p1 p2 E1 E2) as (t1 & t2 & H1 & H2 & H3).
  exists p1, p2, t1, t2. repeat split; assumption.
Defined.

Lemma loadBlogPosts_filter_witness :
  loadBlogPosts Sample.matter Sample.Date_parse Sample.blogContents (Some "General")
  = filter (in_category "General")
      (loadBlogPosts Sample.matter Sample.Date_parse Sample.blogContents None).
Proof.
  destruct (loadBlogPosts_filter Sample.matter Sample.Date_parse Sample.blogContents "General")
    as (_ & _ & H); [discriminate|].
  apply H. reflexivity.
Defined.

(** C3 as stated fails at the empty string, which is a string and not
    [null]: the result holds posts whose category is not empty. *)
Lemma empty_filter_keeps_other_categories :
  ~ Forall (fun post => category post = "")
      (loadBlogPosts Sample.matter Sample.Date_parse Sample.blogContents (Some "")).
Proof.
  intros H. vm_compute in H. apply Forall_inv in H. discriminate H.
Qed.

Lemma getCategories_shape_witness :
  NoDup (getCategories Sample.matter Sample.Date_parse Sample.blogContents).
Proof.
  destruct (getCategories_shape Sample.matter Sample.Date_parse Sample.blogContents)
    as (cats & _ & _ & _ & _ & H).
  apply H. intros post Hin. vm_compute in Hin.
  destruct Hin as [<-|[<-|[<-|[<-|[]]]]]; discriminate.
Defined.

(** C4 as stated fails when a post is in a category named ["All"]: the
    result of [getCategories] then starts with ["All"] twice. *)
Lemma sentinel_category_duplicates :
  ~ NoDup (getCategories Sample.matter Sample.Date_parse Sample.overviewContents).
Proof.
  intros H. vm_compute in H. inversion H as [|x l Hn _]. apply Hn. left. reflexivity.
Qed.

Lemma constructed_post_defaults_witness :
  exists post,
    loop_body Sample.matter None ("notes.md", "notes") {| posts := []; next_id := 1 |}
    = inr {| posts := [post]; next_id := 2 |}
    /\ category post = "General" /\ tags post = [].
Proof.
  destruct (constructed_post_defaults Sample.matter None "notes.md" "notes"
              {| posts := []; next_id := 1 |}
              {| data_title := Some "Notes"; data_date := Some "2025-08-15";
                 data_excerpt := None; data_category := None; data_tags := None |}
              "Short notes." eq_refl)
    as (post & H1 & _ & H2 & H3 & _).
  exists post. split; [exact H1|]. split; [apply H2|apply H3]; reflexivity.
Defined.

Lemma empty_filter_is_no_filter_witness :
  exists built,
    Forall2 (post_of_entry Sample.matter) Sample.blogContents built
    /\ map id built = [1; 2; 3; 4]%Z
    /\ forall post,
         In post built ->
         In post (loadBlogPosts Sample.matter Sample.Date_parse Sample.blogContents (Some "")).
Proof.
  exact (proj1 (proj2 (empty_filter_is_no_filter Sample.matter Sample.Date_parse
                         Sample.blogContents))
           Sample.blogContents [] eq_refl eq_refl).
Defined.

(** The sample table with the empty filter: all four posts, in three
    categories. *)
Example empty_filter_sample :
  map category
    (loadBlogPosts Sample.matter Sample.Date_parse Sample.blogContents (Some ""))
  = ["General"; "AWS Backup"; "Automation"; "General"].
Proof. reflexivity. Qed.

End LoaderSpec.

(** ** The renderer *)

Module RenderFacts.
Import Js JsFacts BlogPost.


(** The fence test on a line that opens with some other character. *)
Lemma startsWith_other (c d : ascii) (pat s : string) :
  c <> d -> startsWith (String d s) (String c pat) = false.
Proof.
  intros H. unfold startsWith. simpl. destruct (ascii_dec c d); [contradiction|reflexivity].
Qed.

Lemma startsWith_append (pat s : string) : startsWith (pat ++ s) pat = true.
Proof. apply prefix_append. Qed.

Lemma nonempty_false {A : Type} (l : list A) : nonempty l = false -> l = [].
Proof. destruct l; [reflexivity|discriminate]. Qed.

(** What the two flushes in front of a fence, a heading, a blank line or an
    image leave. *)
Definition paragraph_node (k : Key) (st : State) : list Element :=
  if nonempty (currentParagraph st)
  then [p k (join " " (currentParagraph st))] else [].

Definition list_node (k : Key) (st : State) : list Element :=
  if nonempty (listItems st) then [ul k (listItems st)] else [].

Lemma flush_paragraph_spec (k : Key) (st : State) :
  flush_paragraph k st =
  {| elements := elements st ++ paragraph_node k st;
     currentParagraph := [];
     inCodeBlock := inCodeBlock st;
     codeLines := codeLines st;
     listItems := listItems st |}.
Proof.
  unfold flush_paragraph, paragraph_node.
  destruct st as [els [|x cp] code cl items]; simpl; [|reflexivity].
  now rewrite app_nil_r.
Qed.

Lemma flush_list_spec (k : Key) (st : State) :
  flush_list k st =
  {| elements := elements st ++ list_node k st;
     currentParagraph := currentParagraph st;
     inCodeBlock := inCodeBlock st;
     codeLines := codeLines st;
     listItems := [] |}.
Proof.
  unfold flush_list, list_node.
  destruct st as [els cp code cl [|x items]]; simpl; [|reflexivity].
  now rewrite app_nil_r.
Qed.

Lemma flush_both_spec (index : nat) (st : State) :
  flush_both index st =
  {| elements := elements st ++ paragraph_node (IndexKey "p" index) st
                             ++ list_node (IndexKey "ul" index) st;
     currentParagraph := [];
     inCodeBlock := inCodeBlock st;
     codeLines := codeLines st;
     listItems := [] |}.
Proof.
  unfold flush_both. rewrite flush_list_spec, flush_paragraph_spec. simpl.
  unfold list_node at 1. simpl. fold (list_node (IndexKey "ul" index) st).
  now rewrite app_assoc.
Qed.

Lemma forEach_app (a b : list string) (index : nat) (st : State) :
  forEach (a ++ b) index st = forEach b (index + List.length a) (forEach a index st).
Proof.
  revert index st. induction a as [|line a IH]; intros index st; simpl.
  - now rewrite Nat.add_0_r.
  - rewrite IH. f_equal. lia.
Qed.

(** *** Headings *)

Lemma step_h2 (st : State) (text : string) (index : nat) :
  inCodeBlock st = false ->
  step st ("## " ++ text) index
  = push (h2 (IndexKey "h2" index) text) (flush_both index st).
Proof.
  intros Hin. unfold step.
  assert (H : startsWith ("## " ++ text) "```" = false)
    by (apply startsWith_other; discriminate).
  now rewrite H, Hin, startsWith_append, replace_prefix.
Qed.

Lemma step_h3 (st : State) (text : string) (index : nat) :
  inCodeBlock st = false ->
  step st ("### " ++ text) index
  = push (h3 (IndexKey "h3" index) text) (flush_both index st).
Proof.
  intros Hin. unfold step.
  assert (H : startsWith ("### " ++ text) "```" = false)
    by (apply startsWith_other; discriminate).
  assert (H' : startsWith ("### " ++ text) "## " = false) by reflexivity.
  now rewrite H, Hin, H', startsWith_append, replace_prefix.
Qed.

(** *** Inside a code block *)

Definition no_fence (line : string) : Prop := startsWith line "```" = false.

Lemma step_in_code (st : State) (line : string) (index : nat) :
  inCodeBlock st = true -> no_fence line ->
  step st line index =
  {| elements := elements st;
     currentParagraph := currentParagraph st;
     inCodeBlock := true;
     codeLines := codeLines st ++ [line];
     listItems := listItems st |}.
Proof.
  intros Hin Hline. unfold step. rewrite Hline, Hin. reflexivity.
Qed.

Lemma step_close (st : State) (line : string) (index : nat) :
  inCodeBlock st = true -> startsWith line "```" = true ->
  step st line index =
  {| elements := elements st
                 ++ [pre (IndexKey "code" index) (join (String newline "") (codeLines st))];
     currentParagraph := currentParagraph st;
     inCodeBlock := false;
     codeLines := [];
     listItems := listItems st |}.
Proof.
  intros Hin Hline. unfold step. rewrite Hline, Hin. reflexivity.
Qed.

Lemma step_open (st : State) (line : string) (index : nat) :
  inCodeBlock st = false -> startsWith line "```" = true ->
  step st line index =
  {| elements := elements st ++ paragraph_node (IndexKey "p" index) st
                             ++ list_node (IndexKey "ul" index) st;
     currentParagraph := [];
     inCodeBlock := true;
     codeLines := codeLines st;
     listItems := [] |}.
Proof.
  intros Hin Hline. unfold step. rewrite Hline, Hin, flush_both_spec. reflexivity.
Qed.

Lemma finish_spec (st : State) :
  finish st = elements st ++ paragraph_node (NamedKey "final-p") st
                          ++ list_node (NamedKey "final-ul") st.
Proof.
  unfold finish. rewrite flush_list_spec, flush_paragraph_spec. simpl.
  unfold list_node at 1. simpl. fold (list_node (NamedKey "final-ul") st).
  now rewrite app_assoc.
Qed.

Lemma forEach_in_code (body : list string) :
  Forall no_fence body ->
  forall (st : State) (index : nat),
    inCodeBlock st = true ->
    forEach body index st =
    {| elements := elements st;
       currentParagraph := currentParagraph st;
       inCodeBlock := true;
       codeLines := codeLines st ++ body;
       listItems := listItems st |}.
Proof.
  induction 1 as [|line body Hline _ IH]; intros st index Hin; simpl.
  - rewrite app_nil_r. destruct st; simpl in *. now subst.
  - rewrite (step_in_code st line index Hin Hline), IH by reflexivity. simpl.
    now rewrite <- app_assoc.
Qed.

(** *** List lines *)

Fixpoint all_digits (s : string) : bool :=
  match s with
  | EmptyString => true
  | String c s' => is_digit c && all_digits s'
  end.

Lemma skip_digits_marker (digits rest : string) :
  all_digits digits = true ->
  skip_digits (digits ++ String "."%char rest) = (String.length digits, String "."%char rest).
Proof.
  induction digits as [|c digits IH]; simpl; intros H; [reflexivity|].
  apply andb_prop in H as [Hc H]. rewrite Hc, IH by exact H. reflexivity.
Qed.

Lemma numbered_marker_match (digits text : string) :
  digits <> "" -> all_digits digits = true ->
  numbered_marker (digits ++ ". " ++ text) = Some text.
Proof.
  intros Hne Hd. unfold numbered_marker.
  change (". " ++ text)%string with (String "."%char (String " "%char text)).
  rewrite skip_digits_marker by exact Hd.
  destruct digits; [contradiction|reflexivity].
Qed.

Lemma digit_not_backtick (c : ascii) : is_digit c = true -> "`"%char <> c.
Proof. intros H <-. discriminate H. Qed.

Lemma digit_not_hash (c : ascii) : is_digit c = true -> "#"%char <> c.
Proof. intros H <-. discriminate H. Qed.

(** The state after a list line whose item text is [text]. *)
Definition item_appended (st : State) (text : string) (index : nat) : State :=
  {| elements := elements st ++ paragraph_node (IndexKey "p" index) st;
     currentParagraph := [];
     inCodeBlock := false;
     codeLines := codeLines st;
     listItems := listItems st ++ [li (IndexKey "li" index) (bold text)] |}.

Lemma step_numbered (st : State) (digits text : string) (index : nat) :
  inCodeBlock st = false -> digits <> "" -> all_digits digits = true ->
  step st (digits ++ ". " ++ text) index = item_appended st text index.
Proof.
  intros Hin Hne Hd. unfold step, strip.
  rewrite (numbered_marker_match digits text Hne Hd).
  destruct digits as [|d digits]; [contradiction|].
  simpl in Hd. apply andb_prop in Hd as [Hd _].
  change (String d digits ++ ". " ++ text)%string
    with (String d (digits ++ ". " ++ text)).
  rewrite !startsWith_other by (apply digit_not_backtick || apply digit_not_hash; exact Hd).
  rewrite Hin. simpl is_some. cbv iota.
  rewrite flush_paragraph_spec. unfold push_item, item_appended. simpl. now rewrite Hin.
Qed.

Lemma step_bullet (st : State) (marker : ascii) (text : string) (index : nat) :
  inCodeBlock st = false -> marker = "-"%char \/ marker = "*"%char ->
  step st (String marker (String " "%char text)) index = item_appended st text index.
Proof.
  intros Hin Hm. unfold step, strip.
  rewrite !startsWith_other by (destruct Hm; subst; discriminate).
  rewrite Hin.
  assert (Hn : numbered_marker (String marker (String " "%char text)) = None)
    by (destruct Hm; subst; reflexivity).
  assert (Hs : startsWith (String marker (String " "%char text)) "- "
               || startsWith (String marker (String " "%char text)) "* " = true).
  { destruct Hm; subst.
    - change (startsWith ("- " ++ text) "- " || startsWith ("- " ++ text) "* " = true).
      rewrite (startsWith_append "- " text). reflexivity.
    - change (startsWith ("* " ++ text) "- " || startsWith ("* " ++ text) "* " = true).
      rewrite (startsWith_append "* " text). apply orb_true_r. }
  assert (Hb : bullet_marker (String marker (String " "%char text)) = Some text)
    by (destruct Hm; subst; reflexivity).
  rewrite Hn, Hs, Hb. simpl is_some. cbv iota.
  rewrite flush_paragraph_spec. unfold push_item, item_appended. simpl. now rewrite Hin.
Qed.

(** [list_line line text]: [line] is a list line, of either style, whose
    text after the marker is [text]. *)
Inductive list_line : string -> string -> Prop :=
| numbered_line (digits text : string) :
    digits <> "" -> all_digits digits = true ->
    list_line (digits ++ ". " ++ text) text
| dash_line (text : string) : list_line ("- " ++ text) text
| star_line (text : string) : list_line ("* " ++ text) text.

Lemma step_list_line (st : State) (line text : string) (index : nat) :
  inCodeBlock st = false -> list_line line text ->
  step st line index = item_appended st text index.
Proof.
  intros Hin [digits t Hne Hd|t|t].
  - now apply step_numbered.
  - apply (step_bullet st "-"%char t index Hin). now left.
  - apply (step_bullet st "*"%char t index Hin). now right.
Qed.

(** The items of consecutive list lines, the first at index [index]. *)
Fixpoint items_from (index : nat) (texts : list string) : list ListItem :=
  match texts with
  | [] => []
  | text :: rest => li (IndexKey "li" index) (bold text) :: items_from (S index) rest
  end.

Lemma forEach_list_lines (lines texts : list string) :
  Forall2 list_line lines texts ->
  forall (st : State) (index : nat),
    inCodeBlock st = false -> currentParagraph st = [] ->
    forEach lines index st =
    {| elements := elements st;
       currentParagraph := [];
       inCodeBlock := false;
       codeLines := codeLines st;
       listItems := listItems st ++ items_from index texts |}.
Proof.
  induction 1 as [|line text lines texts Hline _ IH]; intros st index Hin Hcp; simpl.
  - rewrite app_nil_r. destruct st; simpl in *. now subst.
  - rewrite (step_list_line st line text index Hin Hline), IH by reflexivity.
    unfold item_appended, paragraph_node. rewrite Hcp. simpl.
    now rewrite app_nil_r, <- app_assoc.
Qed.

(** *** Regular text *)

(** The line reaches the last branch of the callback: none of the tests
    in front of it holds. *)
Definition regular_text (line : string) : bool :=
  negb (startsWith line "```")
  && negb (startsWith line "## ")
  && negb (startsWith line "### ")
  && negb (is_some (numbered_marker line))
  && negb (startsWith line "- " || startsWith line "* ")
  && negb (String.eqb (trim line) "")
  && negb (image_test line).

Lemma step_regular (st : State) (line : string) (index : nat) :
  inCodeBlock st = false -> regular_text line = true ->
  step st line index =
  {| elements := elements st;
     currentParagraph := currentParagraph st ++ [bold line];
     inCodeBlock := false;
     codeLines := codeLines st;
     listItems := listItems st |}.
Proof.
  intros Hin H. unfold regular_text in H.
  repeat (apply andb_prop in H as [H ?]).
  repeat match goal with
         | E : negb _ = true |- _ => apply negb_true_iff in E
         end.
  unfold step.
  repeat match goal with
         | E : _ = false |- _ => rewrite E; clear E
         end.
  reflexivity.
Qed.

Lemma forEach_regular (lines : list string) :
  forallb regular_text lines = true ->
  forall (st : State) (index : nat),
    inCodeBlock st = false ->
    forEach lines index st =
    {| elements := elements st;
       currentParagraph := currentParagraph st ++ map bold lines;
       inCodeBlock := false;
       codeLines := codeLines st;
       listItems := listItems st |}.
Proof.
  induction lines as [|line lines IH]; intros H st index Hin; simpl.
  - rewrite app_nil_r. destruct st; simpl in *. now subst.
  - simpl in H. apply andb_prop in H as [Hline H].
    rewrite (step_regular st line index Hin Hline), IH by (exact H || reflexivity).
    simpl. now rewrite <- app_assoc.
Qed.

(** *** Bold spans *)

(** Two stars in a row occur in [s]. *)
Fixpoint has_two_stars (s : string) : bool :=
  match s with
  | String "*"%char (String "*"%char _) => true
  | String _ s' => has_two_stars s'
  | EmptyString => false
  end.

Lemma bold_plain (s : string) : has_two_stars s = false -> bold s = s.
Proof.
  unfold bold. induction s as [|c s IH]; intros H; [reflexivity|].
  assert (Htail : has_two_stars s = false).
  { simpl in H. destruct (Ascii.eqb_spec c "*"%char) as [->|Hc].
    - destruct s as [|d s]; [reflexivity|].
      destruct (Ascii.eqb_spec d "*"%char) as [->|Hd]; [discriminate H|].
      destruct d as [[] [] [] [] [] [] [] []]; try exact H; contradiction.
    - destruct c as [[] [] [] [] [] [] [] []]; try exact H; contradiction. }
  simpl. destruct (Ascii.eqb_spec c "*"%char) as [->|Hc].
  - destruct s as [|d s]; [reflexivity|].
    destruct (Ascii.eqb_spec d "*"%char) as [->|Hd]; [discriminate H|].
    replace (match d with "*"%char => until_stars s | _ => None end) with (@None (string * string))
      by (destruct d as [[] [] [] [] [] [] [] []]; try reflexivity; contradiction).
    now rewrite (IH Htail).
  - now rewrite (IH Htail).
Qed.

Lemma until_stars_split (s capture rest : string) :
  until_stars s = Some (capture, rest) -> s = (capture ++ "**" ++ rest)%string.
Proof.
  revert capture. induction s as [|c s IH]; intros capture H; simpl in H; [discriminate|].
  destruct (Ascii.eqb_spec c "*"%char) as [->|Hc].
  - destruct s as [|d s].
    + simpl in H. destruct (until_stars "") ; discriminate.
    + destruct (Ascii.eqb_spec d "*"%char) as [->|Hd].
      * injection H as <- <-. reflexivity.
      * replace (match d with "*"%char => Some s | _ => None end) with (@None string) in H
          by (destruct d as [[] [] [] [] [] [] [] []]; try reflexivity; contradiction).
        change (is_line_terminator "*"%char) with false in H. cbv iota in H.
        destruct (until_stars (String d s)) as [[cap r]|] eqn:E; [|discriminate].
        injection H as <- <-. simpl. f_equal. now apply IH.
  - destruct (is_line_terminator c); [discriminate|].
    destruct (until_stars s) as [[cap r]|] eqn:E; [|discriminate].
    injection H as <- <-. simpl. f_equal. now apply IH.
Qed.

Lemma bold_from_skip (a r : string) (n : nat) :
  bold_from (String.length a + n) (a ++ r) = bold_from n r.
Proof. induction a as [|c a IH]; simpl; [reflexivity|exact IH]. Qed.

(** A matched pair of double stars becomes one [<strong>] span, and the
    replacement goes on behind it. *)
Lemma bold_span (s capture rest : string) :
  until_stars s = Some (capture, rest) ->
  bold ("**" ++ s) = ("<strong>" ++ capture ++ "</strong>" ++ bold rest)%string.
Proof.
  intros H. unfold bold.
  change (bold_from 0 ("**" ++ s))
    with (match until_stars s with
          | Some (capture, _) =>
              ("<strong>" ++ capture ++ "</strong>"
               ++ bold_from (1 + String.length capture + 2) (String "*"%char s))%string
          | None => String "*"%char (bold_from 0 (String "*"%char s))
          end).
  rewrite H. do 3 f_equal.
  apply until_stars_split in H. subst s.
  change (bold_from (String.length capture + 2) (capture ++ "**" ++ rest) = bold_from 0 rest).
  rewrite (bold_from_skip capture ("**" ++ rest) 2). reflexivity.
Qed.

End RenderFacts.

Module RenderSpec.
Import Js JsFacts BlogPost RenderFacts.

(** C5: a line that starts with three backticks toggles the code-block
    mode.  Outside a code block it first emits the pending paragraph, then
    the pending list, and enters the mode.  Inside a code block every other
    line is appended to the code buffer as it is, whatever it looks like.
    The closing fence emits one [pre] node whose text is the buffered lines
    joined by line feeds; so a block of lines between two fences becomes
    exactly one such node. *)
Theorem code_fence_toggles :
  (forall st line index,
      inCodeBlock st = false -> startsWith line "```" = true ->
      step st line index =
      {| elements := elements st ++ paragraph_node (IndexKey "p" index) st
                                 ++ list_node (IndexKey "ul" index) st;
         currentParagraph := [];
         inCodeBlock := true;
         codeLines := codeLines st;
         listItems := [] |})
  /\ (forall st line index,
         inCodeBlock st = true -> startsWith line "```" = false ->
         step st line index =
         {| elements := elements st;
            currentParagraph := currentParagraph st;
            inCodeBlock := true;
            codeLines := codeLines st ++ [line];
            listItems := listItems st |})
  /\ (forall st line index,
         inCodeBlock st = true -> startsWith line "```" = true ->
         step st line index =
         {| elements := elements st
                        ++ [pre (IndexKey "code" index)
                              (join (String newline "") (codeLines st))];
            currentParagraph := currentParagraph st;
            inCodeBlock := false;
            codeLines := [];
            listItems := listItems st |})
  /\ (forall st body fence index,
         inCodeBlock st = true ->
         Forall (fun line => startsWith line "```" = false) body ->
         startsWith fence "```" = true ->
         forEach (body ++ [fence]) index st =
         {| elements := elements st
                        ++ [pre (IndexKey "code" (index + List.length body))
                              (join (String newline "") (codeLines st ++ body))];
            currentParagraph := currentParagraph st;
            inCodeBlock := false;
            codeLines := [];
            listItems := listItems st |}).
Proof.
  split; [|split; [|split]].
  - intros. now apply step_open.
  - intros. now apply step_in_code.
  - intros. now apply step_close.
  - intros st body fence index Hin Hbody Hfence.
    rewrite forEach_app, (forEach_in_code body Hbody st index Hin). simpl.
    now rewrite step_close.
Qed.

(** C6: outside a code block, a list line of either style (digits, a dot
    and a space; a dash and a space; a star and a space) emits the pending
    paragraph, leaves the list buffer in place and appends to it the text
    behind the marker with its bold spans formatted.  Consecutive list
    lines therefore end in a single [ul] node.  The digits of a numbered
    marker have no effect on the result. *)
Theorem list_lines_accumulate :
  (forall st line text index,
      inCodeBlock st = false -> list_line line text ->
      step st line index =
      {| elements := elements st ++ paragraph_node (IndexKey "p" index) st;
         currentParagraph := [];
         inCodeBlock := false;
         codeLines := codeLines st;
         listItems := listItems st ++ [li (IndexKey "li" index) (bold text)] |})
  /\ (forall lines texts,
         lines <> [] -> Forall2 list_line lines texts ->
         renderLines lines = [ul (NamedKey "final-ul") (items_from 0 texts)])
  /\ (forall st digits digits' text index,
         inCodeBlock st = false ->
         digits <> "" -> all_digits digits = true ->
         digits' <> "" -> all_digits digits' = true ->
         step st (digits ++ ". " ++ text) index = step st (digits' ++ ". " ++ text) index).
Proof.
  split; [|split].
  - intros st line text index Hin Hline. now apply step_list_line.
  - intros lines texts Hne Hlines. unfold renderLines.
    rewrite (forEach_list_lines lines texts Hlines initial 0) by reflexivity.
    destruct Hlines as [|line text lines texts _ _]; [contradiction|]. reflexivity.
  - intros st digits digits' text index Hin H1 H2 H3 H4.
    now rewrite !step_numbered.
Qed.

(** C9: when a fence opens a code block and no later line closes it, the
    lines behind the fence leave no trace: the result is what was emitted
    up to the fence together with the flush at the fence, the same as if
    the input ended with the fence.  The flush after the last line emits
    the pending paragraph and the pending list only, never the code
    buffer. *)
Theorem unclosed_fence_drops_rest (front : list string) (fence : string) (rest : list string) :
  inCodeBlock (forEach front 0 initial) = false ->
  startsWith fence "```" = true ->
  Forall (fun line => startsWith line "```" = false) rest ->
  renderLines (front ++ fence :: rest)
  = elements (flush_both (List.length front) (forEach front 0 initial))
  /\ renderLines (front ++ fence :: rest) = renderLines (front ++ [fence])
  /\ (forall st, finish st = elements st ++ paragraph_node (NamedKey "final-p") st
                                       ++ list_node (NamedKey "final-ul") st).
Proof.
  intros Hin Hfence Hrest.
  assert (H : forall tail, Forall no_fence tail ->
            renderLines (front ++ fence :: tail)
            = elements (flush_both (List.length front) (forEach front 0 initial))).
  { intros tail Htail. unfold renderLines. rewrite forEach_app. simpl.
    rewrite (step_open _ fence _ Hin Hfence).
    rewrite (forEach_in_code tail Htail) by reflexivity.
    rewrite finish_spec, flush_both_spec. simpl.
    unfold paragraph_node at 2, list_node at 2. simpl.
    now rewrite !app_nil_r. }
  split; [|split].
  - now apply H.
  - rewrite (H rest Hrest). symmetry. apply H. constructor.
  - apply finish_spec.
Qed.

(** *** The renderer on sample input *)

Lemma code_fence_toggles_witness :
  elements (step Sample.pending "```js" 3)
  = [h2 (IndexKey "h2" 0) "Title"; p (IndexKey "p" 3) "Some text";
     ul (IndexKey "ul" 3) [li (IndexKey "li" 1) "item"]]
  /\ codeLines (step Sample.in_code "## not a heading" 2)
     = ["let x = 1;"; "## not a heading"]
  /\ elements (step Sample.in_code "```" 2)
     = [h2 (IndexKey "h2" 0) "Title"; pre (IndexKey "code" 2) "let x = 1;"]
  /\ elements (forEach (["## not a heading"; "- not an item"] ++ ["```"]) 2 Sample.in_code)
     = [h2 (IndexKey "h2" 0) "Title";
        pre (IndexKey "code" 4)
          (join Sample.nl ["let x = 1;"; "## not a heading"; "- not an item"])].
Proof.
  destruct code_fence_toggles as (H1 & H2 & H3 & H4).
  split; [|split; [|split]].
  - rewrite (H1 Sample.pending "```js" 3 eq_refl eq_refl). reflexivity.
  - rewrite (H2 Sample.in_code "## not a heading" 2 eq_refl eq_refl). reflexivity.
  - rewrite (H3 Sample.in_code "```" 2 eq_refl eq_refl). reflexivity.
  - rewrite (H4 Sample.in_code ["## not a heading"; "- not an item"] "```" 2 eq_refl);
      [reflexivity|repeat constructor|reflexivity].
Defined.

Lemma list_lines_accumulate_witness :
  listItems (step Sample.pending "- next **one**" 2)
  = [li (IndexKey "li" 1) "item"; li (IndexKey "li" 2) "next <strong>one</strong>"]
  /\ renderLines ["1. one"; "27. two **b**"; "- three"; "* four"]
     = [ul (NamedKey "final-ul")
          [li (IndexKey "li" 0) "one"; li (IndexKey "li" 1) "two <strong>b</strong>";
           li (IndexKey "li" 2) "three"; li (IndexKey "li" 3) "four"]]
  /\ step Sample.pending "1. x" 5 = step Sample.pending "99. x" 5.
Proof.
  destruct list_lines_accumulate as (H1 & H2 & H3).
  split; [|split].
  - rewrite (H1 Sample.pending "- next **one**" "next **one**" 2 eq_refl (dash_line _)).
    reflexivity.
  - rewrite (H2 ["1. one"; "27. two **b**"; "- three"; "* four"]
               ["one"; "two **b**"; "three"; "four"]); [reflexivity|discriminate|].
    constructor; [apply (numbered_line "1" "one"); [discriminate|reflexivity]|].
    constructor; [apply (numbered_line "27" "two **b**"); [discriminate|reflexivity]|].
    constructor; [apply (dash_line "three")|].
    constructor; [apply (star_line "four")|constructor].
  - apply (H3 Sample.pending "1" "99" "x" 5); (reflexivity || discriminate).
Defined.

Lemma unclosed_fence_drops_rest_witness :
  renderLines (["Intro"] ++ "```js" :: ["let x = 1;"; "## lost"; "- lost too"])
  = [p (IndexKey "p" 1) "Intro"].
Proof.
  rewrite (proj1 (unclosed_fence_drops_rest ["Intro"] "```js"
                    ["let x = 1;"; "## lost"; "- lost too"] eq_refl eq_refl
                    ltac:(repeat constructor))).
  reflexivity.
Defined.

(** The scenarios of the specification. *)
Example heading_and_bold :
  renderContent ("## Title" ++ Sample.nl ++ Sample.nl ++ "Hello **world**.")
  = [h2 (IndexKey "h2" 0) "Title"; p (NamedKey "final-p") "Hello <strong>world</strong>."].
Proof. reflexivity. Qed.

Example fenced_code :
  renderContent ("```" ++ Sample.nl ++ "code line 1" ++ Sample.nl ++ "code line 2"
                 ++ Sample.nl ++ "```")
  = [pre (IndexKey "code" 3) ("code line 1" ++ Sample.nl ++ "code line 2")].
Proof. reflexivity. Qed.

Example list_then_paragraph :
  renderContent ("- one" ++ Sample.nl ++ "- two" ++ Sample.nl ++ Sample.nl ++ "Para")
  = [ul (IndexKey "ul" 2) [li (IndexKey "li" 0) "one"; li (IndexKey "li" 1) "two"];
     p (NamedKey "final-p") "Para"].
Proof. reflexivity. Qed.

Example image_line :
  renderContent "![Alt](/img/x.png)" = [img (IndexKey "img" 0) "/img/x.png" "Alt"].
Proof. reflexivity. Qed.

Example list_then_heading :
  renderContent ("- one" ++ Sample.nl ++ "## Next")
  = [ul (IndexKey "ul" 1) [li (IndexKey "li" 0) "one"]; h2 (IndexKey "h2" 1) "Next"].
Proof. reflexivity. Qed.

Example unclosed_fence_in_markdown :
  renderContent ("Intro" ++ Sample.nl ++ "```js" ++ Sample.nl ++ "let x = 1;")
  = [p (IndexKey "p" 1) "Intro"].
Proof. reflexivity. Qed.

End RenderSpec.

(** ** More about the loader *)

Module LoaderExtra.
Import Js JsFacts BlogLoader LoaderFacts.

(** Posts in increasing order of [id]. *)
Definition id_lt (a b : Post) : Prop := (id a < id b)%Z.

Lemma sorted_snoc {A : Type} (R : A -> A -> Prop) (l : list A) (x : A) :
  StronglySorted R l -> Forall (fun y => R y x) l -> StronglySorted R (l ++ [x]).
Proof.
  induction 1 as [|y l Hs IH Hy]; intros Hx; simpl.
  - repeat constructor.
  - inversion_clear Hx as [|? ? Hyx Hlx]. constructor; [now apply IH|].
    apply Forall_app. split; [exact Hy|]. now repeat constructor.
Qed.

Lemma sorted_filter {A : Type} (R : A -> A -> Prop) (f : A -> bool) (l : list A) :
  StronglySorted R l -> StronglySorted R (filter f l).
Proof.
  induction 1 as [|y l Hs IH Hy]; simpl; [constructor|].
  destruct (f y); [|exact IH]. constructor; [exact IH|].
  apply Forall_forall. intros z Hz. apply filter_In in Hz as [Hz _].
  rewrite Forall_forall in Hy. now apply Hy.
Qed.

Lemma sorted_app_right {A : Type} (R : A -> A -> Prop) (a l : list A) :
  StronglySorted R (a ++ l) -> StronglySorted R l.
Proof.
  induction a as [|x a IH]; simpl; intros H; [exact H|].
  inversion_clear H. now apply IH.
Qed.

Lemma sorted_between {A : Type} (R : A -> A -> Prop) (a b c : list A) (x y : A) :
  StronglySorted R (a ++ x :: b ++ y :: c) -> R x y.
Proof.
  intros H. apply sorted_app_right in H. inversion_clear H as [|? ? _ Hx].
  rewrite Forall_forall in Hx. apply Hx. apply in_or_app. right. now left.
Qed.

Lemma id_lt_NoDup (l : list Post) : StronglySorted id_lt l -> NoDup (map id l).
Proof.
  induction 1 as [|x l Hs IH Hx]; simpl; constructor; [|exact IH].
  intros Hin. apply in_map_iff in Hin as (y & Hy & Hin).
  rewrite Forall_forall in Hx. specialize (Hx y Hin). unfold id_lt in Hx. lia.
Qed.

(** A sort whose comparator never asks for a swap changes nothing. *)
Lemma sort_in_order {A : Type} (cmp : A -> A -> option Z) (l : list A) :
  (forall x y, In x l -> In y l -> before cmp x y) -> sort cmp l = l.
Proof.
  induction l as [|x l IH]; intros H; simpl; [reflexivity|].
  rewrite IH by (intros; apply H; now right).
  apply insert_front. apply Forall_forall. intros y Hy. apply H; [now left|now right].
Qed.

Section Facts.
Variable matter : string -> string + (Data * string).
Variable Date_parse : string -> option Z.

Local Abbreviation load := (loadBlogPosts matter Date_parse).
Local Abbreviation run := (for_entries matter).
Local Arguments loop_body : simpl never.

(** [post] was built from the document at position [k] of [table], with
    the number [k + 1]. *)
Definition built_at (table : list (string * string)) (post : Post) : Prop :=
  exists k filename text data markdown,
    nth_error table k = Some (filename, text)
    /\ matter text = inr (data, markdown)
    /\ post = build_post (Z.of_nat k + 1) filename data markdown.

Lemma run_origin (cat : option string) (entries : list (string * string)) :
  forall done st,
    next_id st = (Z.of_nat (List.length done) + 1)%Z ->
    Forall (built_at (done ++ entries)) (posts st) ->
    Forall (built_at (done ++ entries)) (posts (fst (run cat entries st))).
Proof.
  induction entries as [|[fn text] entries IH]; intros done st Hn Hst; simpl; [exact Hst|].
  destruct (matter text) as [e|[data markdown]] eqn:E.
  - now rewrite (loop_body_inl _ _ _ _ _ _ E).
  - rewrite (loop_body_inr _ _ _ _ _ _ _ E).
    replace (done ++ (fn, text) :: entries) with ((done ++ [(fn, text)]) ++ entries) in *
      by now rewrite <- app_assoc.
    apply IH; simpl.
    + rewrite length_app. simpl. lia.
    + destruct (falsy cat || strict_eq _ cat); [|exact Hst].
      apply Forall_app. split; [exact Hst|]. constructor; [|constructor].
      exists (List.length done), fn, text, data, markdown.
      rewrite <- app_assoc. simpl. rewrite nth_error_app2, Nat.sub_diag by lia.
      repeat split; [exact E|]. now rewrite Hn.
Qed.

Lemma run_ids (cat : option string) (entries : list (string * string)) :
  forall st,
    StronglySorted id_lt (posts st) ->
    Forall (fun post => (id post < next_id st)%Z) (posts st) ->
    StronglySorted id_lt (posts (fst (run cat entries st)))
    /\ Forall (fun post => (id post < next_id (fst (run cat entries st)))%Z)
         (posts (fst (run cat entries st))).
Proof.
  induction entries as [|[fn text] entries IH]; intros st Hs Hb; simpl; [now split|].
  destruct (matter text) as [e|[data markdown]] eqn:E.
  - rewrite (loop_body_inl _ _ _ _ _ _ E). now split.
  - rewrite (loop_body_inr _ _ _ _ _ _ _ E). apply IH; simpl.
    + destruct (falsy cat || strict_eq _ cat); [|exact Hs].
      apply sorted_snoc; [exact Hs|]. exact Hb.
    + assert (Hb' : Forall (fun post => (id post < next_id st + 1)%Z) (posts st)).
      { eapply Forall_impl; [|exact Hb]. simpl. intros. lia. }
      destruct (falsy cat || strict_eq _ cat); [|exact Hb'].
      apply Forall_app. split; [exact Hb'|]. constructor; [simpl; lia|constructor].
Qed.

Lemma run_length (cat : option string) (entries : list (string * string)) :
  forall st,
    (List.length (posts (fst (run cat entries st)))
     <= List.length (posts st) + List.length entries)%nat.
Proof.
  induction entries as [|[fn text] entries IH]; intros st; simpl; [lia|].
  destruct (matter text) as [e|[data markdown]] eqn:E.
  - rewrite (loop_body_inl _ _ _ _ _ _ E). simpl. lia.
  - rewrite (loop_body_inr _ _ _ _ _ _ _ E).
    etransitivity; [apply IH|]. simpl.
    destruct (falsy cat || strict_eq _ cat); [rewrite length_app; simpl|]; lia.
Qed.

(** An exception is thrown exactly when some document does not parse. *)
Lemma run_thrown (cat : option string) (entries : list (string * string)) :
  forall st, snd (run cat entries st) = None <-> all_parse matter entries = true.
Proof.
  induction entries as [|[fn text] entries IH]; intros st; simpl; [now split|].
  unfold parses. simpl.
  destruct (matter text) as [e|[data markdown]] eqn:E.
  - rewrite (loop_body_inl _ _ _ _ _ _ E). simpl. split; discriminate.
  - rewrite (loop_body_inr _ _ _ _ _ _ _ E). simpl. apply IH.
Qed.

End Facts.

Section Properties.
Variable matter : string -> string + (Data * string).
Variable Date_parse : string -> option Z.

Local Abbreviation load := (loadBlogPosts matter Date_parse).
Local Abbreviation start := {| posts := []; next_id := 1 |}.

Lemma loaded_built_at (table : list (string * string)) (cat : option string) (post : Post) :
  In post (loadBlogPosts matter Date_parse table cat) ->
  exists k filename text data markdown,
    nth_error table k = Some (filename, text)
    /\ matter text = inr (data, markdown)
    /\ post = build_post (Z.of_nat k + 1) filename data markdown.
Proof.
  intros Hin. rewrite loadBlogPosts_unfold in Hin. apply sort_In in Hin.
  pose proof (run_origin matter cat table [] start eq_refl (Forall_nil _)) as H.
  rewrite Forall_forall in H. exact (H post Hin).
Qed.

(** X1: every returned post was built from a document of the table: the
    post with [id] [k + 1] comes from the document at position [k], which
    [matter] parses. *)
Theorem loaded_post_origin (table : list (string * string)) (cat : option string) (post : Post) :
  In post (loadBlogPosts matter Date_parse table cat) ->
  exists k filename text data markdown,
    nth_error table k = Some (filename, text)
    /\ matter text = inr (data, markdown)
    /\ post = build_post (Z.of_nat k + 1) filename data markdown.
Proof. exact (loaded_built_at table cat post). Qed.

Lemma loaded_ids_NoDup (table : list (string * string)) (cat : option string) :
  NoDup (map id (loadBlogPosts matter Date_parse table cat)).
Proof.
  rewrite loadBlogPosts_unfold.
  apply (Permutation_NoDup
           (Permutation_map id (Permutation_sym (sort_perm (compare_date Date_parse) _)))).
  apply id_lt_NoDup.
  apply (run_ids matter cat table start); constructor.
Qed.

(** X2: within one call no two returned posts have the same [id]. *)
Theorem loaded_ids_unique (table : list (string * string)) (cat : option string) :
  NoDup (map id (loadBlogPosts matter Date_parse table cat)).
Proof. exact (loaded_ids_NoDup table cat). Qed.

Lemma loaded_category_filled
    (table : list (string * string)) (cat : option string) (post : Post) :
  In post (loadBlogPosts matter Date_parse table cat) -> category post <> "".
Proof.
  intros Hin. rewrite loadBlogPosts_unfold in Hin. apply sort_In in Hin.
  assert (H : Forall (fun q => category q <> "")
                (posts (fst (for_entries matter cat table start)))).
  { apply run_invariant; [|constructor].
    intros n fn text data markdown _ _. simpl. unfold or_string.
    destruct (data_category data) as [c|]; [|discriminate].
    destruct (String.eqb_spec c ""); [discriminate|assumption]. }
  rewrite Forall_forall in H. exact (H post Hin).
Qed.

(** X3: the category of a returned post is never the empty string. *)
Theorem loaded_category_not_empty
    (table : list (string * string)) (cat : option string) (post : Post) :
  In post (loadBlogPosts matter Date_parse table cat) -> category post <> "".
Proof. exact (loaded_category_filled table cat post). Qed.

(** X4: a filter never adds posts, and no call returns more posts than the
    table has documents. *)
Theorem loaded_length_bounds (table : list (string * string)) (cat : option string) :
  (List.length (loadBlogPosts matter Date_parse table cat) <= List.length (loadBlogPosts matter Date_parse table None))%nat
  /\ (List.length (loadBlogPosts matter Date_parse table None) <= List.length table)%nat.
Proof.
  split.
  - destruct cat as [c|]; [|lia].
    destruct (String.eqb_spec c "") as [->|Hc].
    + rewrite !loadBlogPosts_unfold, run_empty_filter. lia.
    + rewrite !loadBlogPosts_unfold.
      rewrite !(Permutation_length (sort_perm _ _)).
      destruct (run_filter matter c table Hc start start eq_refl eq_refl) as [-> _].
      apply filter_length_le.
  - rewrite loadBlogPosts_unfold, (Permutation_length (sort_perm _ _)).
    apply (run_length matter None table start).
Qed.

(** X5: with a non-empty filter the result is empty exactly when no post
    of the unfiltered result is in that category. *)
Theorem unknown_category_is_empty (table : list (string * string)) (c : string) :
  c <> "" ->
  (loadBlogPosts matter Date_parse table (Some c) = []
   <-> forall post, In post (loadBlogPosts matter Date_parse table None) -> category post <> c).
Proof.
  intros Hc.
  assert (Hperm : Permutation (loadBlogPosts matter Date_parse table (Some c))
                    (filter (in_category c) (loadBlogPosts matter Date_parse table None))).
  { destruct (run_filter matter c table Hc start start eq_refl eq_refl) as [Hposts _].
    rewrite !loadBlogPosts_unfold, Hposts.
    rewrite sort_perm. apply filter_Permutation. symmetry. apply sort_perm. }
  split.
  - intros Hnil post Hin Hcat. rewrite Hnil in Hperm.
    apply Permutation_nil in Hperm.
    assert (Hp : In post (filter (in_category c) (loadBlogPosts matter Date_parse table None))).
    { apply filter_In. split; [exact Hin|]. now apply String.eqb_eq. }
    rewrite Hperm in Hp. exact Hp.
  - intros Hall. destruct (loadBlogPosts matter Date_parse table (Some c)) as [|post l] eqn:E; [reflexivity|].
    assert (Hp : In post (filter (in_category c) (loadBlogPosts matter Date_parse table None))).
    { apply (Permutation_in post Hperm). now left. }
    apply filter_In in Hp as [Hin Hcat]. apply String.eqb_eq in Hcat.
    now destruct (Hall post Hin).
Qed.

(** X6: the sort is stable: with valid dates, of two returned posts with
    the same date the one whose document comes first in the table (the
    smaller [id]) comes first. *)
Theorem equal_dates_keep_table_order
    (table : list (string * string)) (cat : option string)
    (l1 l2 l3 : list Post) (p1 p2 : Post) :
  valid_dates matter Date_parse table = true ->
  loadBlogPosts matter Date_parse table cat = l1 ++ p1 :: l2 ++ p2 :: l3 ->
  new_Date Date_parse (date p1) = new_Date Date_parse (date p2) ->
  (id p1 < id p2)%Z.
Proof.
  intros Hv Hload Hdate.
  set (same := fun q => (time_value Date_parse q =? time_value Date_parse p1)%Z).
  set (loaded := posts (fst (for_entries matter cat table start))).
  assert (Hs : StronglySorted id_lt (filter same loaded)).
  { apply sorted_filter. apply (run_ids matter cat table start); constructor. }
  assert (Hf : filter same (loadBlogPosts matter Date_parse table cat) = filter same loaded).
  { rewrite loadBlogPosts_unfold.
    rewrite (compare_date_valid Date_parse _ (loaded_valid matter Date_parse table cat Hv)).
    fold loaded.
    rewrite filter_sort by (apply by_time_total || apply by_time_trans).
    apply sort_in_order. intros x y Hx Hy.
    apply filter_In in Hx as [_ Hx]. apply filter_In in Hy as [_ Hy].
    unfold same in Hx, Hy. apply Z.eqb_eq in Hx, Hy.
    unfold before, sortCompare, by_time. lia. }
  rewrite Hload in Hf. rewrite <- Hf in Hs.
  rewrite filter_app in Hs. simpl in Hs. rewrite filter_app in Hs. simpl in Hs.
  assert (H1 : same p1 = true) by apply Z.eqb_refl.
  assert (H2 : same p2 = true).
  { unfold same, time_value. rewrite Hdate. apply Z.eqb_refl. }
  rewrite H1, H2 in Hs. exact (sorted_between _ _ _ _ _ _ Hs).
Qed.

(** X7: the console gets an entry exactly when some document of the table
    does not parse, and never more than one.  When every document parses,
    the unfiltered result holds exactly one post for each document,
    numbered from 1 in the order of the table. *)
Theorem console_iff_failure (table : list (string * string)) (cat : option string) :
  (console_of matter Date_parse table cat = [] <-> all_parse matter table = true)
  /\ (List.length (console_of matter Date_parse table cat) <= 1)%nat
  /\ (all_parse matter table = true ->
      List.length (loadBlogPosts matter Date_parse table None) = List.length table
      /\ exists built,
           Permutation (loadBlogPosts matter Date_parse table None) built
           /\ Forall2 (post_of_entry matter) table built
           /\ map id built = map Z.of_nat (seq 1 (List.length table))).
Proof.
  split; [|split].
  - rewrite console_unfold, <- (run_thrown matter cat table start).
    destruct (snd (for_entries matter cat table start)); split; (reflexivity || discriminate).
  - rewrite console_unfold.
    destruct (snd (for_entries matter cat table start)); simpl; lia.
  - intros Hall.
    destruct (run_all matter table Hall start) as (built & H1 & H2 & H3).
    assert (Hperm : Permutation (loadBlogPosts matter Date_parse table None) built).
    { rewrite loadBlogPosts_unfold, H1. apply sort_perm. }
    split.
    + rewrite (Permutation_length Hperm). symmetry. exact (Forall2_length H2).
    + exists built. split; [exact Hperm|split; [exact H2|]].
      rewrite H3, <- seq_shift, map_map. apply map_ext. intros k. simpl next_id. lia.
Qed.

End Properties.

(** *** The slug *)

(** [pat] occurs somewhere in [s]. *)
Fixpoint occurs (pat s : string) : bool :=
  String.prefix pat s
  || match s with
     | EmptyString => false
     | String _ s' => occurs pat s'
     end.

Lemma replace_absent (pat rep s : string) :
  occurs pat s = false -> replace pat rep s = s.
Proof.
  induction s as [|c s IH]; simpl; intros H; apply orb_false_elim in H as [Hp Hs].
  - destruct pat; [discriminate|reflexivity].
  - rewrite Hp. now rewrite IH.
Qed.

Lemma prefix_cons (a b : ascii) (pat s : string) :
  String.prefix (String a pat) (String b s)
  = if ascii_dec a b then String.prefix pat s else false.
Proof. reflexivity. Qed.

Lemma md_not_across (c : ascii) (stem rest : string) :
  String.prefix ".md" (String c stem) = false ->
  String.prefix ".md" (String c (stem ++ ".md" ++ rest)) = false.
Proof.
  change ".md"%string with (String "."%char (String "m"%char (String "d"%char ""))).
  rewrite !prefix_cons.
  destruct (ascii_dec "." c) as [_|]; [|reflexivity].
  destruct stem as [|d stem]; [reflexivity|].
  change (String d stem ++ String "."%char (String "m"%char (String "d"%char "")) ++ rest)%string
    with (String d (stem ++ String "."%char (String "m"%char (String "d"%char "")) ++ rest)).
  rewrite !prefix_cons.
  destruct (ascii_dec "m" d) as [_|]; [|reflexivity].
  destruct stem as [|e stem]; [reflexivity|].
  change (String e stem ++ String "."%char (String "m"%char (String "d"%char "")) ++ rest)%string
    with (String e (stem ++ String "."%char (String "m"%char (String "d"%char "")) ++ rest)).
  rewrite !prefix_cons.
  destruct (ascii_dec "d" e) as [_|]; [|reflexivity].
  destruct stem; discriminate.
Qed.

Lemma replace_first_md (stem rest : string) :
  occurs ".md" stem = false ->
  replace ".md" "" (stem ++ ".md" ++ rest) = (stem ++ rest)%string.
Proof.
  revert rest. induction stem as [|c stem IH]; intros rest Ho.
  - apply (replace_prefix ".md" rest).
  - simpl in Ho. apply orb_false_elim in Ho as [Hp Ho].
    change (replace ".md" "" (String c stem ++ ".md" ++ rest))
      with (if String.prefix ".md" (String c (stem ++ ".md" ++ rest))
            then ("" ++ drop 3 (String c (stem ++ ".md" ++ rest)))%string
            else String c (replace ".md" "" (stem ++ ".md" ++ rest))).
    rewrite (md_not_across c stem rest Hp), (IH rest Ho). reflexivity.
Qed.

Lemma replace_md_extension (stem : string) :
  occurs ".md" stem = false -> replace ".md" "" (stem ++ ".md") = stem.
Proof.
  intros Ho. pose proof (replace_first_md stem "" Ho) as H.
  replace (stem ++ "")%string with stem in H by (clear; induction stem; simpl; congruence).
  exact H.
Qed.

(** X8: the slug.  [filename.replace('.md', '')] removes the first
    [".md"] of the file name and nothing else: a name without [".md"] is
    its own slug, the name [stem ++ ".md"] has the slug [stem] when [".md"]
    does not occur in [stem], and whatever follows the first [".md"]
    stays in the slug. *)
Theorem slug_removes_first_md (n : Z) (data : Data) (markdown : string) :
  (forall name, occurs ".md" name = false ->
                slug (build_post n name data markdown) = name)
  /\ (forall stem, occurs ".md" stem = false ->
                   slug (build_post n (stem ++ ".md") data markdown) = stem)
  /\ (forall stem rest, occurs ".md" stem = false ->
                        slug (build_post n (stem ++ ".md" ++ rest) data markdown)
                        = (stem ++ rest)%string).
Proof.
  split; [|split]; simpl.
  - intros name Ho. now apply replace_absent.
  - apply replace_md_extension.
  - apply replace_first_md.
Qed.

End LoaderExtra.

(** ** The pages *)

Module AppFacts.
Import Js JsFacts BlogLoader LoaderFacts LoaderExtra App.

Lemma NoDup_map_on {A B : Type} (f : A -> B) (l : list A) :
  NoDup l ->
  (forall x y, In x l -> In y l -> f x = f y -> x = y) ->
  NoDup (map f l).
Proof.
  induction 1 as [|x l Hx Hn IH]; intros Hinj; simpl; constructor.
  - intros Hin. apply in_map_iff in Hin as (y & Hy & Hin).
    assert (y = x) by (apply Hinj; [now right|now left|exact Hy]).
    subst. contradiction.
  - apply IH. intros a b Ha Hb. apply Hinj; now right.
Qed.

Lemma map_unique {A B : Type} (f : A -> B) (l : list A) (x y : A) :
  NoDup (map f l) -> In x l -> In y l -> f x = f y -> x = y.
Proof.
  induction l as [|z l IH]; simpl; intros Hn Hx Hy E; [contradiction|].
  inversion_clear Hn as [|? ? Hz Hn'].
  destruct Hx as [->|Hx], Hy as [->|Hy]; auto.
  - exfalso. apply Hz. rewrite E. now apply in_map.
  - exfalso. apply Hz. rewrite <- E. now apply in_map.
Qed.

(** The file name [stem ++ ".md"], with no other [".md"] in it. *)
Definition md_name (filename : string) : Prop :=
  exists stem, filename = (stem ++ ".md")%string /\ occurs ".md" stem = false.

Section Facts.
Variable matter : string -> string + (Data * string).
Variable Date_parse : string -> option Z.

Local Abbreviation load := (loadBlogPosts matter Date_parse).
Local Abbreviation start := {| posts := []; next_id := 1 |}.

Lemma load_filter_perm (table : list (string * string)) (c : string) :
  c <> "" ->
  Permutation (loadBlogPosts matter Date_parse table (Some c)) (filter (in_category c) (loadBlogPosts matter Date_parse table None)).
Proof.
  intros Hc.
  destruct (run_filter matter c table Hc start start eq_refl eq_refl) as [Hposts _].
  rewrite !loadBlogPosts_unfold, Hposts.
  rewrite sort_perm. apply filter_Permutation. symmetry. apply sort_perm.
Qed.

(** Distinct file names of the form [stem ++ ".md"] give distinct slugs. *)
Lemma slugs_unique (table : list (string * string)) (cat : option string) :
  NoDup (map fst table) ->
  Forall md_name (map fst table) ->
  NoDup (map slug (loadBlogPosts matter Date_parse table cat)).
Proof.
  intros Hnames Hmd.
  apply NoDup_map_on.
  - apply (NoDup_map_inv id). apply loaded_ids_NoDup.
  - intros x y Hx Hy E.
    destruct (loaded_built_at matter Date_parse table cat x Hx)
      as (k & fn & text & data & markdown & Hk & Hm & ->).
    destruct (loaded_built_at matter Date_parse table cat y Hy)
      as (k' & fn' & text' & data' & markdown' & Hk' & Hm' & ->).
    assert (Hfn : forall j name t, nth_error table j = Some (name, t) ->
                                  nth_error (map fst table) j = Some name).
    { intros j name t Hj. now rewrite nth_error_map, Hj. }
    rewrite Forall_forall in Hmd.
    destruct (Hmd fn) as (stem & -> & Hs);
      [apply (nth_error_In _ k); now apply (Hfn k _ text)|].
    destruct (Hmd fn') as (stem' & -> & Hs');
      [apply (nth_error_In _ k'); now apply (Hfn k' _ text')|].
    simpl in E. rewrite (replace_md_extension stem Hs), (replace_md_extension stem' Hs') in E.
    subst stem'.
    assert (k = k').
    { apply (proj1 (NoDup_nth_error (map fst table)) Hnames).
      - apply nth_error_Some. rewrite (Hfn k _ _ Hk). discriminate.
      - now rewrite (Hfn k _ _ Hk), (Hfn k' _ _ Hk'). }
    subst k'. rewrite Hk in Hk'. injection Hk' as <-.
    rewrite Hm in Hm'. now injection Hm' as <- <-.
Qed.

(** X9: the page of a post.  [BlogPostPage] shows an article only for a
    post of the unfiltered result whose slug is the route parameter, with
    the rendered body of that post; it shows "not found" exactly when no
    such post exists. *)
Theorem post_page_finds_slug (table : list (string * string)) (route_slug : string) :
  (forall post body,
      BlogPostPage matter Date_parse table route_slug = Article post body ->
      slug post = route_slug
      /\ In post (loadBlogPosts matter Date_parse table None)
      /\ body = BlogPost.renderContent (content post))
  /\ (BlogPostPage matter Date_parse table route_slug = NotFound
      <-> forall post, In post (loadBlogPosts matter Date_parse table None) -> slug post <> route_slug).
Proof.
  unfold BlogPostPage.
  destruct (find (fun post => String.eqb (slug post) route_slug) (loadBlogPosts matter Date_parse table None))
    as [found|] eqn:E.
  - apply find_some in E as [Hin Hs]. apply String.eqb_eq in Hs. split.
    + intros post body H. injection H as <- <-. auto.
    + split; [discriminate|]. intros H. now destruct (H found Hin).
  - split; [discriminate|]. split; [|reflexivity].
    intros _ post Hin Hs. pose proof (find_none _ _ E post Hin) as H.
    simpl in H. apply String.eqb_neq in H. contradiction.
Qed.

(** X10: the page of a listed post.  When the file names of the table
    are distinct and of the form [stem ++ ".md"], [BlogPostPage] with the
    slug of a listed post as route parameter shows the article of that very
    post: [posts.find] meets no other post with this slug first. *)
Theorem slug_opens_its_post (table : list (string * string)) (post : Post) :
  NoDup (map fst table) ->
  Forall md_name (map fst table) ->
  In post (loadBlogPosts matter Date_parse table None) ->
  BlogPostPage matter Date_parse table (slug post)
  = Article post (BlogPost.renderContent (content post)).
Proof.
  intros Hnames Hmd Hin. unfold BlogPostPage.
  destruct (find (fun q => String.eqb (slug q) (slug post))
              (loadBlogPosts matter Date_parse table None)) as [found|] eqn:E.
  - apply find_some in E as [Hf Hs]. apply String.eqb_eq in Hs.
    assert (found = post).
    { apply (map_unique slug (loadBlogPosts matter Date_parse table None)); auto.
      now apply slugs_unique. }
    now subst.
  - pose proof (find_none _ _ E post Hin) as H. simpl in H.
    now rewrite String.eqb_refl in H.
Qed.

(** The empty state of the unfiltered list. *)
Lemma unfiltered_list_empty (table : list (string * string)) :
  BlogList matter Date_parse table None = NoPostsMessage
  <-> match table with
      | [] => True
      | (_, text) :: _ => parses matter text = false
      end.
Proof.
  split.
  - unfold BlogList. rewrite loadBlogPosts_unfold.
    destruct table as [|[fn text] rest]; [intros _; exact I|]. unfold parses. simpl.
    destruct (matter text) as [e|[data markdown]] eqn:E; [reflexivity|].
    intros H. exfalso. revert H.
    assert (Hin : In (build_post 1 fn data markdown)
                    (posts (fst (for_entries matter None rest
                                   {| posts := [] ++ [build_post 1 fn data markdown];
                                      next_id := 1 + 1 |}))))
      by (apply run_keeps; simpl; now left).
    apply (sort_In (compare_date Date_parse)) in Hin.
    destruct (sort (compare_date Date_parse) _); [contradiction|discriminate].
  - unfold BlogList. rewrite loadBlogPosts_unfold.
    destruct table as [|[fn text] rest]; [reflexivity|]. unfold parses. simpl.
    destruct (matter text) as [e|[data markdown]]; [reflexivity|discriminate].
Qed.

End Facts.

Section TwoLoads.
Variable matter_nav matter_list : string -> string + (Data * string).
Variable Date_parse : string -> option Z.

(** What the first load parsed, the second load parses to the same. *)
Definition stays_parsed : Prop :=
  forall text data markdown,
    matter_nav text = inr (data, markdown) -> matter_list text = inr (data, markdown).

Lemma run_grows (entries : list (string * string)) :
  stays_parsed ->
  forall st1 st2,
    next_id st1 = next_id st2 ->
    incl (posts st1) (posts st2) ->
    incl (posts (fst (for_entries matter_nav None entries st1)))
         (posts (fst (for_entries matter_list None entries st2))).
Proof.
  intros Hstay. induction entries as [|[fn text] entries IH]; intros st1 st2 Hn Hincl.
  - exact Hincl.
  - cbn [for_entries].
    destruct (matter_nav text) as [e|[data markdown]] eqn:E.
    + rewrite (loop_body_inl _ _ _ _ _ _ E). cbn [fst].
      intros q Hq. apply (run_keeps matter_list None ((fn, text) :: entries)).
      now apply Hincl.
    + rewrite (loop_body_inr _ _ _ _ _ _ _ E).
      rewrite (loop_body_inr _ _ _ _ _ _ _ (Hstay _ _ _ E)).
      apply IH; simpl; [congruence|]. rewrite Hn.
      intros q Hq. apply in_app_or in Hq as [Hq|Hq]; apply in_or_app;
        [left; now apply Hincl|now right].
Qed.

Lemma load_grows (table : list (string * string)) (post : Post) :
  stays_parsed ->
  In post (loadBlogPosts matter_nav Date_parse table None) ->
  In post (loadBlogPosts matter_list Date_parse table None).
Proof.
  intros Hstay Hin. rewrite loadBlogPosts_unfold in *.
  apply sort_In. apply sort_In in Hin.
  apply (run_grows table Hstay {| posts := []; next_id := 1 |}
           {| posts := []; next_id := 1 |} eq_refl (incl_refl _)). exact Hin.
Qed.

(** X11: the buttons of the category navigation.  When the query
    parameter is a category that the navigation lists, other than
    ["All"], and every document that the load of the navigation parsed
    parses to the same in the load of the list, the home page never shows
    the empty state: the button of the category is active, and the list
    shows the posts of the unfiltered result that are in this category, and
    only those. *)
Theorem category_button_leads_to_posts (table : list (string * string)) (c : string) :
  stays_parsed ->
  In c (getCategories matter_nav Date_parse table) ->
  c <> "All" ->
  exists cards,
    main (HomePage matter_nav matter_list Date_parse table (Some c)) = Cards cards
    /\ cards <> []
    /\ Forall (fun post => category post = c) cards
    /\ Permutation cards
         (filter (in_category c) (loadBlogPosts matter_list Date_parse table None))
    /\ In (c, true) (nav (HomePage matter_nav matter_list Date_parse table (Some c))).
Proof.
  intros Hstay Hlisted Hall.
  pose proof Hlisted as Hin. unfold getCategories in Hin.
  destruct Hin as [Hin|Hin]; [congruence|].
  apply (proj1 (sort_In _ _ _)) in Hin. apply (proj1 (distinct_In _ _)) in Hin.
  apply in_map_iff in Hin as (post & Hcat & Hpost).
  assert (Hc : c <> "").
  { rewrite <- Hcat.
    now apply (loaded_category_filled matter_nav Date_parse table None). }
  apply (load_grows table post Hstay) in Hpost.
  pose proof (load_filter_perm matter_list Date_parse table c Hc) as Hperm.
  assert (Hne : loadBlogPosts matter_list Date_parse table (Some c) <> []).
  { intros Hnil. rewrite Hnil in Hperm. apply Permutation_nil in Hperm.
    assert (Hp : In post (filter (in_category c)
                            (loadBlogPosts matter_list Date_parse table None))).
    { apply filter_In. split; [exact Hpost|]. now apply String.eqb_eq. }
    now rewrite Hperm in Hp. }
  assert (Hhome : home_category (Some c) = c).
  { unfold home_category, or_string. apply String.eqb_neq in Hc. now rewrite Hc. }
  exists (loadBlogPosts matter_list Date_parse table (Some c)).
  unfold HomePage. cbn [main nav]. rewrite Hhome.
  split; [|split; [exact Hne|split; [|split; [exact Hperm|]]]].
  - unfold list_category. apply String.eqb_neq in Hall. rewrite Hall. unfold BlogList.
    destruct (loadBlogPosts matter_list Date_parse table (Some c));
      [contradiction|reflexivity].
  - apply (Permutation_Forall (Permutation_sym Hperm)).
    apply Forall_forall. intros q Hq. apply filter_In in Hq as [_ Hq].
    now apply String.eqb_eq.
  - unfold CategoryNav. apply in_map_iff. exists c. split; [|exact Hlisted].
    now rewrite String.eqb_refl.
Qed.

(** X12: without a category.  An absent query parameter, an empty one and
    ["All"] give the same home page: its first button is ["All"] and is
    active, and its list is the unfiltered one, so the parameter ["All"]
    never filters.  The unfiltered list shows the empty state exactly when
    the table is empty or the parser throws on the first document in the
    load of the list itself. *)
Theorem home_without_category (table : list (string * string)) :
  HomePage matter_nav matter_list Date_parse table (Some "")
  = HomePage matter_nav matter_list Date_parse table None
  /\ HomePage matter_nav matter_list Date_parse table (Some "All")
     = HomePage matter_nav matter_list Date_parse table None
  /\ main (HomePage matter_nav matter_list Date_parse table None)
     = BlogList matter_list Date_parse table None
  /\ hd_error (nav (HomePage matter_nav matter_list Date_parse table None))
     = Some ("All", true)
  /\ (main (HomePage matter_nav matter_list Date_parse table None) = NoPostsMessage
      <-> match table with
          | [] => True
          | (_, text) :: _ => parses matter_list text = false
          end).
Proof.
  repeat split; try reflexivity.
  - apply (proj1 (unfiltered_list_empty matter_list Date_parse table)).
  - apply (proj2 (unfiltered_list_empty matter_list Date_parse table)).
Qed.

End TwoLoads.

(** Two loads that meet the same parser: what one parsed, the other does. *)
Lemma stays_parsed_same (matter : string -> string + (Data * string)) :
  stays_parsed matter matter.
Proof. intros text data markdown H. exact H. Qed.

End AppFacts.

(** ** More about the renderer *)

Module RenderExtra.
Import Js JsFacts BlogPost RenderFacts.

(** *** Lines *)

(** The line feed as a string. *)
Definition nl : string := String newline "".

(** No line feed occurs in [s]. *)
Fixpoint one_line (s : string) : bool :=
  match s with
  | EmptyString => true
  | String c s' => negb (Ascii.eqb c newline) && one_line s'
  end.

Lemma split_nl_cons (s : string) : exists l ls, split_nl s = l :: ls.
Proof.
  induction s as [|c s (l & ls & IH)]; simpl; [now exists "", []|].
  destruct (Ascii.eqb c newline); [now exists "", (split_nl s)|].
  rewrite IH. now exists (String c l), ls.
Qed.

Lemma split_one_line (s : string) : one_line s = true -> split_nl s = [s].
Proof.
  induction s as [|c s IH]; simpl; [reflexivity|]. intros H.
  apply andb_prop in H as [Hc H]. apply negb_true_iff in Hc.
  now rewrite Hc, IH.
Qed.

Lemma split_append_feed (s t : string) :
  split_nl (s ++ String newline t) = split_nl s ++ split_nl t.
Proof.
  induction s as [|c s IH]; simpl.
  - reflexivity.
  - rewrite IH. destruct (Ascii.eqb c newline); [reflexivity|].
    destruct (split_nl_cons s) as (l & ls & ->). reflexivity.
Qed.

Lemma split_append (s t : string) :
  split_nl (s ++ nl ++ t) = split_nl s ++ split_nl t.
Proof. exact (split_append_feed s t). Qed.

Lemma join_cons (l : string) (ls : list string) :
  ls <> [] -> join nl (l :: ls) = (l ++ nl ++ join nl ls)%string.
Proof. destruct ls; [contradiction|reflexivity]. Qed.

Lemma append_assoc_3 (a b c : string) : ((a ++ b) ++ c = a ++ b ++ c)%string.
Proof. induction a; simpl; congruence. Qed.

Lemma join_split (s : string) : join nl (split_nl s) = s.
Proof.
  induction s as [|c s IH]; simpl; [reflexivity|].
  destruct (split_nl_cons s) as (l & ls & E). rewrite E in *.
  destruct (Ascii.eqb_spec c newline) as [->|Hc].
  - rewrite join_cons by discriminate. now rewrite IH.
  - destruct ls as [|l' ls]; simpl in *; now rewrite IH.
Qed.

(** X13: splitting into lines and joining with line feeds are inverse to
    each other: [s.split('\n').join('\n')] is [s], and a non-empty array
    of strings without line feeds is what [split] returns for their join.
    Splitting a text with a line feed in the middle gives the lines of the
    two halves. *)
Theorem split_join_round_trip :
  (forall s, join nl (split_nl s) = s)
  /\ (forall lines, lines <> [] -> forallb one_line lines = true ->
                    split_nl (join nl lines) = lines)
  /\ (forall s t, split_nl (s ++ nl ++ t) = split_nl s ++ split_nl t).
Proof.
  split; [|split].
  - apply join_split.
  - induction lines as [|l lines IH]; intros Hne H; [contradiction|].
    simpl in H. apply andb_prop in H as [Hl H].
    destruct lines as [|l' lines].
    + now apply split_one_line.
    + rewrite join_cons by discriminate.
      rewrite split_append, (split_one_line l Hl), IH by (discriminate || exact H).
      reflexivity.
  - apply split_append.
Qed.

(** *** What every step keeps *)

Ltac step_cases :=
  unfold step, flush_both, flush_list, flush_paragraph, push, push_item;
  repeat match goal with
         | |- context [if ?b then _ else _] => destruct b eqn:?
         | |- context [match image_match ?l with _ => _ end] =>
             destruct (image_match l) as [[? ?]|] eqn:?
         end.

(** Outside a code block the code buffer is empty; inside one the
    paragraph and the list buffers are. *)
Definition buffers_ok (st : State) : Prop :=
  if inCodeBlock st then currentParagraph st = [] /\ listItems st = []
  else codeLines st = [].

Lemma step_buffers_ok (st : State) (line : string) (index : nat) :
  buffers_ok st -> buffers_ok (step st line index).
Proof.
  unfold buffers_ok. destruct st as [els cp code cl items]. simpl.
  destruct code; intros H; [destruct H as [-> ->]|subst cl]; step_cases; simpl in *;
    repeat match goal with
           | E : nonempty _ = false |- _ => apply nonempty_false in E; subst
           end;
    auto; discriminate.
Qed.

Lemma forEach_buffers_ok (lines : list string) :
  forall index st, buffers_ok st -> buffers_ok (forEach lines index st).
Proof.
  induction lines as [|line lines IH]; intros index st H; simpl; [exact H|].
  apply IH. now apply step_buffers_ok.
Qed.

Lemma step_extends (st : State) (line : string) (index : nat) :
  exists new, elements (step st line index) = elements st ++ new.
Proof.
  step_cases; simpl; rewrite <- ?app_assoc;
    first [eexists; reflexivity | exists []; now rewrite app_nil_r].
Qed.

Lemma forEach_extends (lines : list string) :
  forall index st, exists new, elements (forEach lines index st) = elements st ++ new.
Proof.
  induction lines as [|line lines IH]; intros index st; simpl.
  - exists []. now rewrite app_nil_r.
  - destruct (IH (S index) (step st line index)) as (new & ->).
    destruct (step_extends st line index) as (new' & ->).
    exists (new' ++ new). now rewrite app_assoc.
Qed.

Lemma reachable_buffers_ok (lines : list string) : buffers_ok (forEach lines 0 initial).
Proof. apply forEach_buffers_ok. reflexivity. Qed.

Lemma fenced_block
    (front : list string) (fence : string) (body : list string) (fence' : string) :
  inCodeBlock (forEach front 0 initial) = false ->
  startsWith fence "```" = true ->
  Forall (fun line => startsWith line "```" = false) body ->
  startsWith fence' "```" = true ->
  forEach (front ++ fence :: body ++ [fence']) 0 initial =
  {| elements :=
       elements (forEach front 0 initial)
       ++ paragraph_node (IndexKey "p" (List.length front)) (forEach front 0 initial)
       ++ list_node (IndexKey "ul" (List.length front)) (forEach front 0 initial)
       ++ [pre (IndexKey "code" (List.length front + 1 + List.length body))
             (join nl body)];
     currentParagraph := [];
     inCodeBlock := false;
     codeLines := [];
     listItems := [] |}.
Proof.
  intros Hout Hfence Hbody Hfence'.
  pose proof (reachable_buffers_ok front) as Hok. unfold buffers_ok in Hok.
  rewrite Hout in Hok.
  rewrite forEach_app. simpl.
  rewrite (step_open _ fence _ Hout Hfence), Hok.
  rewrite forEach_app, (forEach_in_code body Hbody) by reflexivity. simpl.
  rewrite step_close by (reflexivity || exact Hfence'). simpl.
  rewrite <- !app_assoc.
  replace (List.length front + 1 + List.length body)%nat
    with (S (List.length front + List.length body)) by lia.
  reflexivity.
Qed.

(** X14: a code block holds exactly the lines between its fences.
    Wherever in the input a fence opens a block and a later fence closes
    it, the pass emits the pending paragraph, the pending list and then one
    [pre] node whose text is the lines in between joined by line feeds,
    with nothing left over from earlier blocks, and leaves all buffers
    empty. *)
Theorem code_block_holds_its_lines
    (front : list string) (fence : string) (body : list string) (fence' : string) :
  inCodeBlock (forEach front 0 initial) = false ->
  startsWith fence "```" = true ->
  Forall (fun line => startsWith line "```" = false) body ->
  startsWith fence' "```" = true ->
  forEach (front ++ fence :: body ++ [fence']) 0 initial =
  {| elements :=
       elements (forEach front 0 initial)
       ++ paragraph_node (IndexKey "p" (List.length front)) (forEach front 0 initial)
       ++ list_node (IndexKey "ul" (List.length front)) (forEach front 0 initial)
       ++ [pre (IndexKey "code" (List.length front + 1 + List.length body))
             (join nl body)];
     currentParagraph := [];
     inCodeBlock := false;
     codeLines := [];
     listItems := [] |}.
Proof. exact (fenced_block front fence body fence'). Qed.

(** X15: a fenced block in the markdown text keeps its code as it is.
    For a text that is an opening fence with any annotation, the code and a
    closing fence, the result is one [pre] node whose text is the code,
    character for character; the annotation leaves no trace. *)
Theorem fenced_markdown_verbatim (info code : string) :
  one_line info = true ->
  forallb (fun line => negb (startsWith line "```")) (split_nl code) = true ->
  renderContent ("```" ++ info ++ nl ++ code ++ nl ++ "```")
  = [pre (IndexKey "code" (S (List.length (split_nl code)))) code].
Proof.
  intros Hinfo Hcode. unfold renderContent.
  replace ("```" ++ info ++ nl ++ code ++ nl ++ "```")%string
    with (("```" ++ info) ++ nl ++ code ++ nl ++ "```")%string
    by apply (append_assoc_3 "```" info).
  rewrite !split_append.
  rewrite (split_one_line ("```" ++ info)) by exact Hinfo.
  unfold renderLines.
  assert (Hbody : Forall (fun line => startsWith line "```" = false) (split_nl code)).
  { apply Forall_forall. intros line Hin. rewrite forallb_forall in Hcode.
    now apply negb_true_iff, Hcode. }
  pose proof (fenced_block [] ("```" ++ info) (split_nl code) "```"
                eq_refl (startsWith_append "```" info) Hbody eq_refl) as H.
  simpl app in H. simpl app.
  change (split_nl "```") with ["```"].
  rewrite H. unfold finish. simpl. now rewrite join_split.
Qed.

(** X16: nodes once emitted stay.  The nodes emitted for the first lines
    of the input are the first nodes of the result, whatever lines follow. *)
Theorem earlier_nodes_stay (front rest : list string) :
  exists more,
    renderLines (front ++ rest) = elements (forEach front 0 initial) ++ more.
Proof.
  unfold renderLines. rewrite forEach_app, finish_spec.
  destruct (forEach_extends rest (0 + List.length front) (forEach front 0 initial))
    as (new & ->).
  eexists. rewrite <- app_assoc. reflexivity.
Qed.

(** *** Keys *)

Definition key_of (e : Element) : Key :=
  match e with
  | pre k _ | p k _ | ul k _ | h2 k _ | h3 k _ | img k _ _ => k
  end.

(** The items of the [ul] nodes among [els] have distinct keys. *)
Definition items_distinct (e : Element) : Prop :=
  match e with
  | ul _ items => NoDup (map li_key items)
  | _ => True
  end.

Lemma step_shape (st : State) (line : string) (index : nat) :
  exists new,
    elements (step st line index) = elements st ++ new
    /\ NoDup (map key_of new)
    /\ Forall (fun e => exists tag, key_of e = IndexKey tag index) new
    /\ Forall (fun e => match e with ul _ items => items = listItems st | _ => True end) new
    /\ (listItems (step st line index) = listItems st
        \/ listItems (step st line index) = []
        \/ exists html,
             listItems (step st line index) = listItems st ++ [li (IndexKey "li" index) html]).
Proof.
  step_cases; simpl;
    (first [ exists []; split; [symmetry; apply app_nil_r|]
           | eexists; split; [rewrite <- ?app_assoc; reflexivity|] ]);
    simpl; repeat split;
    first [ solve [left; reflexivity]
          | solve [right; left; reflexivity]
          | solve [right; right; eexists; reflexivity]
          | repeat (constructor; simpl); try (intuition discriminate); eauto ].
Qed.

(** The keys at line [index]: those of the nodes and of the buffered items
    are distinct and carry smaller line numbers. *)
Definition earlier (index : nat) (k : Key) : Prop :=
  exists tag n, k = IndexKey tag n /\ (n < index)%nat.

Definition keys_ok (index : nat) (st : State) : Prop :=
  NoDup (map key_of (elements st))
  /\ Forall (fun e => earlier index (key_of e)) (elements st)
  /\ Forall items_distinct (elements st)
  /\ NoDup (map li_key (listItems st))
  /\ Forall (fun item => earlier index (li_key item)) (listItems st).

Lemma earlier_S (index : nat) (k : Key) : earlier index k -> earlier (S index) k.
Proof. intros (tag & n & -> & H). exists tag, n. split; [reflexivity|lia]. Qed.

Lemma NoDup_snoc_keys {A : Type} (key : A -> Key) (l new : list A) (index : nat) :
  NoDup (map key l) -> Forall (fun x => earlier index (key x)) l ->
  NoDup (map key new) -> Forall (fun x => exists tag, key x = IndexKey tag index) new ->
  NoDup (map key (l ++ new)).
Proof.
  intros Hl Hb Hn Hi. rewrite map_app. apply NoDup_app; [exact Hl|exact Hn|].
  intros k Hk Hk'.
  apply in_map_iff in Hk as (x & <- & Hx). apply in_map_iff in Hk' as (y & E & Hy).
  rewrite Forall_forall in Hb, Hi.
  destruct (Hb x Hx) as (tag & n & E1 & Hlt). destruct (Hi y Hy) as (tag' & E2).
  rewrite E1, E2 in E. injection E as _ <-. lia.
Qed.

Lemma step_keys_ok (st : State) (line : string) (index : nat) :
  keys_ok index st -> keys_ok (S index) (step st line index).
Proof.
  intros (H1 & H2 & H3 & H4 & H5).
  destruct (step_shape st line index) as (new & E & N1 & N2 & N3 & Hitems).
  unfold keys_ok. rewrite E. repeat split.
  - now apply (NoDup_snoc_keys key_of _ _ index).
  - apply Forall_app. split.
    + eapply Forall_impl; [|exact H2]. intros e. apply earlier_S.
    + eapply Forall_impl; [|exact N2]. intros e (tag & ->). exists tag, index. split; [reflexivity|lia].
  - apply Forall_app. split; [exact H3|].
    eapply Forall_impl; [|exact N3]. intros [] He; simpl; auto. now subst.
  - destruct Hitems as [->|[->|(html & ->)]]; [exact H4|constructor|].
    apply (NoDup_snoc_keys li_key _ _ index); auto.
    + repeat constructor. intros [].
    + repeat constructor. now exists "li".
  - destruct Hitems as [->|[->|(html & ->)]].
    + eapply Forall_impl; [|exact H5]. intros item. apply earlier_S.
    + constructor.
    + apply Forall_app. split.
      * eapply Forall_impl; [|exact H5]. intros item. apply earlier_S.
      * repeat constructor. exists "li", index. split; [reflexivity|lia].
Qed.

Lemma forEach_keys_ok (lines : list string) :
  forall index st, keys_ok index st ->
                   keys_ok (index + List.length lines) (forEach lines index st).
Proof.
  induction lines as [|line lines IH]; intros index st H; simpl.
  - now rewrite Nat.add_0_r.
  - replace (index + S (List.length lines))%nat with (S index + List.length lines)%nat by lia.
    apply IH. now apply step_keys_ok.
Qed.

(** X17: the keys of the result are distinct: no two nodes of
    [renderContent] have the same key, and within each [ul] node no two
    items have. *)
Theorem render_keys_unique (markdown : string) :
  NoDup (map key_of (renderContent markdown))
  /\ Forall items_distinct (renderContent markdown).
Proof.
  unfold renderContent, renderLines.
  set (lines := split_nl markdown).
  assert (H : keys_ok (0 + List.length lines) (forEach lines 0 initial)).
  { apply forEach_keys_ok. repeat split; constructor. }
  destruct H as (H1 & H2 & H3 & H4 & _).
  rewrite finish_spec. set (st := forEach lines 0 initial) in *.
  assert (Hnamed : forall name e, In e (elements st) -> key_of e <> NamedKey name).
  { intros name e He E. rewrite Forall_forall in H2.
    destruct (H2 e He) as (tag & n & E' & _). congruence. }
  split.
  - rewrite map_app. apply NoDup_app; [exact H1| |].
    + unfold paragraph_node, list_node.
      destruct (nonempty (currentParagraph st)), (nonempty (listItems st)); simpl;
        repeat constructor; simpl; intuition discriminate.
    + intros k Hk Hk'. apply in_map_iff in Hk as (e & <- & He).
      unfold paragraph_node, list_node in Hk'.
      destruct (nonempty (currentParagraph st)), (nonempty (listItems st));
        simpl in Hk';
        repeat match goal with
               | G : _ \/ _ |- _ => destruct G
               | G : False |- _ => destruct G
               | G : NamedKey _ = key_of e |- _ => symmetry in G; now apply Hnamed in G
               end.
  - apply Forall_app. split; [exact H3|]. apply Forall_app.
    unfold paragraph_node, list_node.
    destruct (nonempty (currentParagraph st)), (nonempty (listItems st));
      split; repeat constructor; exact H4.
Qed.

(** *** Headings, paragraphs and blank lines *)

Lemma items_from_nonempty (index : nat) (lines texts : list string) :
  Forall2 list_line lines texts -> lines <> [] -> nonempty (items_from index texts) = true.
Proof. intros [|] Hne; [contradiction|reflexivity]. Qed.

Lemma Forall2_list_line_length (lines texts : list string) :
  Forall2 list_line lines texts -> List.length texts = List.length lines.
Proof. intros H. symmetry. exact (Forall2_length H). Qed.

Lemma forEach_one (line : string) (index : nat) (st : State) :
  forEach [line] index st = step st line index.
Proof. reflexivity. Qed.

(** X18: headings.  Outside a code block a line that starts with ["## "]
    or ["### "] emits the pending paragraph, the pending list and then a
    heading of level 2 or 3 whose text is the rest of the line as it is,
    bold markers included.  So a list directly followed by a heading is
    closed in front of the heading. *)
Theorem heading_flushes_buffers :
  (forall st text index,
      inCodeBlock st = false ->
      step st ("## " ++ text) index =
      {| elements := elements st ++ paragraph_node (IndexKey "p" index) st
                                 ++ list_node (IndexKey "ul" index) st
                                 ++ [h2 (IndexKey "h2" index) text];
         currentParagraph := [];
         inCodeBlock := false;
         codeLines := codeLines st;
         listItems := [] |})
  /\ (forall st text index,
         inCodeBlock st = false ->
         step st ("### " ++ text) index =
         {| elements := elements st ++ paragraph_node (IndexKey "p" index) st
                                    ++ list_node (IndexKey "ul" index) st
                                    ++ [h3 (IndexKey "h3" index) text];
            currentParagraph := [];
            inCodeBlock := false;
            codeLines := codeLines st;
            listItems := [] |})
  /\ (forall lines texts text,
         lines <> [] -> Forall2 list_line lines texts ->
         renderLines (lines ++ [("## " ++ text)%string])
         = [ul (IndexKey "ul" (List.length lines)) (items_from 0 texts);
            h2 (IndexKey "h2" (List.length lines)) text]).
Proof.
  split; [|split].
  - intros st text index Hin. rewrite (step_h2 st text index Hin), flush_both_spec.
    unfold push. simpl. now rewrite Hin, <- !app_assoc.
  - intros st text index Hin. rewrite (step_h3 st text index Hin), flush_both_spec.
    unfold push. simpl. now rewrite Hin, <- !app_assoc.
  - intros lines texts text Hne Hlines. unfold renderLines.
    rewrite forEach_app, (forEach_list_lines lines texts Hlines initial 0) by reflexivity.
    rewrite forEach_one, step_h2 by reflexivity. rewrite flush_both_spec, finish_spec.
    unfold paragraph_node, list_node. simpl.
    now rewrite (items_from_nonempty 0 lines texts Hlines Hne).
Qed.

(** X19: a paragraph next to a list.  A list line closes the pending
    paragraph, but a text line does not close the pending list, and every
    flush emits the paragraph first: text directly in front of a list and
    text directly behind it both come out in front of the list. *)
Theorem paragraph_comes_before_list (lines texts regular : list string) :
  lines <> [] -> Forall2 list_line lines texts ->
  regular <> [] -> forallb regular_text regular = true ->
  renderLines (regular ++ lines)
  = [p (IndexKey "p" (List.length regular)) (join " " (map bold regular));
     ul (NamedKey "final-ul") (items_from (List.length regular) texts)]
  /\ renderLines (lines ++ regular)
     = [p (NamedKey "final-p") (join " " (map bold regular));
        ul (NamedKey "final-ul") (items_from 0 texts)].
Proof.
  intros Hne Hlines Hre Hregular. unfold renderLines. split.
  - rewrite forEach_app, (forEach_regular regular Hregular initial 0) by reflexivity.
    destruct Hlines as [|line text lines texts Hline Hlines]; [contradiction|].
    simpl forEach. rewrite (step_list_line _ line text) by (reflexivity || exact Hline).
    rewrite (forEach_list_lines lines texts Hlines) by reflexivity.
    unfold item_appended, paragraph_node. simpl.
    destruct regular; [contradiction|]. reflexivity.
  - rewrite forEach_app, (forEach_list_lines lines texts Hlines initial 0) by reflexivity.
    rewrite (forEach_regular regular Hregular) by reflexivity.
    rewrite finish_spec. unfold paragraph_node, list_node. simpl.
    rewrite (items_from_nonempty 0 lines texts Hlines Hne).
    destruct regular; [contradiction|]. reflexivity.
Qed.

(** The line is empty or made of white space only. *)
Definition blank (line : string) : bool := String.eqb (trim line) "".

Lemma space_not_digit (c : ascii) : is_space c = true -> is_digit c = false.
Proof.
  destruct c as [[] [] [] [] [] [] [] []]; intros H; try reflexivity; discriminate H.
Qed.

Lemma blank_head (line : string) :
  blank line = true ->
  line = "" \/ exists c rest, line = String c rest /\ is_space c = true.
Proof.
  destruct line as [|c rest]; [now left|]. intros H. right. exists c, rest.
  split; [reflexivity|]. unfold blank, trim in H. simpl in H.
  destruct (is_space c) eqn:E; [reflexivity|]. simpl in H. rewrite E in H. discriminate H.
Qed.

Lemma step_blank (st : State) (line : string) (index : nat) :
  inCodeBlock st = false -> blank line = true ->
  step st line index = flush_both index st.
Proof.
  intros Hin Hb. destruct (blank_head line Hb) as [->|(c & rest & -> & Hc)].
  - unfold step. simpl. now rewrite Hin.
  - unfold blank in Hb. unfold step.
    assert (Hd : is_digit c = false) by now apply space_not_digit.
    rewrite !startsWith_other by (intros <-; discriminate Hc).
    assert (Hn : numbered_marker (String c rest) = None).
    { unfold numbered_marker. simpl. now rewrite Hd. }
    now rewrite Hin, Hn, Hb.
Qed.

Lemma forEach_blank (lines : list string) :
  forallb blank lines = true ->
  forall index st,
    inCodeBlock st = false -> currentParagraph st = [] -> listItems st = [] ->
    forEach lines index st = st.
Proof.
  induction lines as [|line lines IH]; intros H index st Hin Hcp Hitems; simpl; [reflexivity|].
  simpl in H. apply andb_prop in H as [Hline H].
  rewrite (step_blank st line index Hin Hline), flush_both_spec.
  destruct st as [els cp code cl items]. simpl in *. subst.
  unfold paragraph_node, list_node. simpl. rewrite app_nil_r.
  now apply IH.
Qed.

(** X20: blank lines.  A line of white space emits the pending paragraph
    and the pending list and nothing for itself: input of blank lines only
    renders to no node at all, and text lines on both sides of a run of
    blank lines come out as two paragraphs. *)
Theorem blank_lines_separate_paragraphs :
  (forall lines, forallb blank lines = true -> renderLines lines = [])
  /\ (forall first gap second,
         first <> [] -> forallb regular_text first = true ->
         gap <> [] -> forallb blank gap = true ->
         second <> [] -> forallb regular_text second = true ->
         renderLines (first ++ gap ++ second)
         = [p (IndexKey "p" (List.length first)) (join " " (map bold first));
            p (NamedKey "final-p") (join " " (map bold second))]).
Proof.
  split.
  - intros lines H. unfold renderLines.
    now rewrite (forEach_blank lines H 0 initial) by reflexivity.
  - intros first gap second Hf1 Hf2 Hg1 Hg2 Hs1 Hs2. unfold renderLines.
    rewrite forEach_app, (forEach_regular first Hf2 initial 0) by reflexivity.
    rewrite forEach_app.
    destruct gap as [|line gap]; [contradiction|]. simpl in Hg2.
    apply andb_prop in Hg2 as [Hline Hgap]. simpl forEach.
    rewrite (step_blank _ line) by (reflexivity || exact Hline). rewrite flush_both_spec.
    rewrite (forEach_blank gap Hgap) by reflexivity.
    rewrite (forEach_regular second Hs2) by reflexivity.
    rewrite finish_spec. unfold paragraph_node, list_node. simpl.
    destruct first; [contradiction|]. destruct second; [contradiction|]. reflexivity.
Qed.

(** *** Bold spans *)

Definition starts_star (s : string) : bool :=
  match s with
  | String d _ => Ascii.eqb d "*"
  | EmptyString => false
  end.

Definition tail (s : string) : string :=
  match s with
  | String _ s' => s'
  | EmptyString => EmptyString
  end.

(** No line terminator occurs in [s]. *)
Fixpoint no_terminator (s : string) : bool :=
  match s with
  | EmptyString => true
  | String c s' => negb (is_line_terminator c) && no_terminator s'
  end.

Lemma star_match {A : Type} (d : ascii) (yes no : A) :
  match d with "*"%char => yes | _ => no end = if Ascii.eqb d "*" then yes else no.
Proof. destruct d as [[] [] [] [] [] [] [] []]; reflexivity. Qed.

Lemma has_two_stars_cons (c : ascii) (s : string) :
  has_two_stars (String c s) = (Ascii.eqb c "*" && starts_star s) || has_two_stars s.
Proof.
  destruct s as [|d s].
  - destruct c as [[] [] [] [] [] [] [] []]; reflexivity.
  - destruct (Ascii.eqb_spec c "*") as [->|Hc].
    + simpl. rewrite star_match. now destruct (Ascii.eqb d "*").
    + simpl starts_star. simpl andb. simpl orb.
      destruct c as [[] [] [] [] [] [] [] []]; try reflexivity. contradiction.
Qed.

Lemma until_stars_cons (c : ascii) (s : string) :
  until_stars (String c s) =
  if Ascii.eqb c "*" && starts_star s then Some (EmptyString, tail s)
  else if is_line_terminator c then None
       else match until_stars s with
            | Some (capture, rest) => Some (String c capture, rest)
            | None => None
            end.
Proof.
  simpl. destruct (Ascii.eqb c "*"); [|reflexivity].
  destruct s as [|d s]; [reflexivity|]. simpl. rewrite star_match.
  now destruct (Ascii.eqb d "*").
Qed.

Lemma bold_cons (c : ascii) (s : string) :
  bold (String c s) =
  match (if Ascii.eqb c "*" && starts_star s then until_stars (tail s) else None) with
  | Some (capture, _) =>
      ("<strong>" ++ capture ++ "</strong>"
       ++ bold_from (1 + String.length capture + 2) s)%string
  | None => String c (bold s)
  end.
Proof.
  unfold bold. simpl. destruct (Ascii.eqb c "*"); [|reflexivity].
  destruct s as [|d s]; [reflexivity|]. simpl. rewrite star_match.
  now destruct (Ascii.eqb d "*").
Qed.

Lemma starts_star_append (a s : string) :
  a <> "" -> starts_star (a ++ s) = starts_star a.
Proof. destruct a; [contradiction|reflexivity]. Qed.

Lemma until_stars_none (s : string) : has_two_stars s = false -> until_stars s = None.
Proof.
  induction s as [|c s IH]; [reflexivity|].
  rewrite has_two_stars_cons, until_stars_cons. intros H.
  apply orb_false_elim in H as [H1 H2]. rewrite H1, (IH H2).
  now destruct (is_line_terminator c).
Qed.

Lemma until_stars_found (capture rest : string) :
  has_two_stars (capture ++ "*") = false -> no_terminator capture = true ->
  until_stars (capture ++ "**" ++ rest) = Some (capture, rest).
Proof.
  induction capture as [|c capture IH]; [reflexivity|].
  change (String c capture ++ "*")%string with (String c (capture ++ "*")).
  change (String c capture ++ "**" ++ rest)%string with (String c (capture ++ "**" ++ rest)).
  rewrite has_two_stars_cons, until_stars_cons. simpl no_terminator.
  intros H Ht. apply orb_false_elim in H as [H1 H2]. apply andb_prop in Ht as [Hc Ht].
  apply negb_true_iff in Hc.
  assert (E : starts_star (capture ++ "**" ++ rest) = starts_star (capture ++ "*"))
    by (destruct capture; reflexivity).
  rewrite E, H1, Hc, (IH H2 Ht). reflexivity.
Qed.

Lemma bold_lead (lead s : string) :
  has_two_stars (lead ++ "*") = false ->
  bold (lead ++ String "*" s) = (lead ++ bold (String "*" s))%string.
Proof.
  intros H. induction lead as [|c lead IH]; [reflexivity|].
  change (String c lead ++ "*")%string with (String c (lead ++ "*")) in H.
  rewrite has_two_stars_cons in H. apply orb_false_elim in H as [H1 H2].
  change (String c lead ++ String "*" s)%string with (String c (lead ++ String "*" s)).
  rewrite bold_cons.
  assert (E : starts_star (lead ++ String "*" s) = starts_star (lead ++ "*"))
    by (destruct lead; reflexivity).
  rewrite E, H1, (IH H2). reflexivity.
Qed.

(** X21: bold spans.  Text between two pairs of stars becomes one
    [<strong>] span and the replacement continues behind it; the text in
    front of the first pair is kept.  A pair of stars that no later pair
    closes stays in the output as it is. *)
Theorem bold_spans :
  (forall lead capture rest,
      has_two_stars (lead ++ "*") = false ->
      has_two_stars (capture ++ "*") = false ->
      no_terminator capture = true ->
      bold (lead ++ "**" ++ capture ++ "**" ++ rest)
      = (lead ++ "<strong>" ++ capture ++ "</strong>" ++ bold rest)%string)
  /\ (forall lead s,
         has_two_stars (lead ++ "*") = false ->
         has_two_stars ("*" ++ s) = false ->
         bold (lead ++ "**" ++ s) = (lead ++ "**" ++ s)%string).
Proof.
  split.
  - intros lead capture rest Hl Hc Ht.
    change (bold (lead ++ String "*"%char ("*" ++ capture ++ "**" ++ rest))
            = (lead ++ "<strong>" ++ capture ++ "</strong>" ++ bold rest)%string).
    rewrite (bold_lead lead _ Hl).
    f_equal. apply (bold_span (capture ++ "**" ++ rest)). now apply until_stars_found.
  - intros lead s Hl Hs.
    change (bold (lead ++ String "*"%char ("*" ++ s)) = (lead ++ "**" ++ s)%string).
    rewrite (bold_lead lead _ Hl).
    f_equal.
    change ("*" ++ s)%string with (String "*"%char s) in Hs.
    pose proof Hs as Hs'. rewrite has_two_stars_cons in Hs'.
    apply orb_false_elim in Hs' as [_ Hs'].
    change ("**" ++ s)%string with (String "*"%char (String "*"%char s)).
    rewrite bold_cons. simpl starts_star. simpl tail.
    rewrite (until_stars_none s Hs'). simpl.
    f_equal. now apply bold_plain.
Qed.

(** *** Images *)

(** Neither [stop] nor a line terminator occurs in [s]. *)
Fixpoint free_of (stop : ascii) (s : string) : bool :=
  match s with
  | EmptyString => true
  | String c s' =>
      negb (Ascii.eqb c stop) && negb (is_line_terminator c) && free_of stop s'
  end.

(** [x] does not occur in [s]. *)
Fixpoint no_char (x : ascii) (s : string) : bool :=
  match s with
  | EmptyString => true
  | String c s' => negb (Ascii.eqb c x) && no_char x s'
  end.

Lemma until_paren_found (src trail : string) :
  free_of ")" src = true -> until_paren (src ++ ")" ++ trail) = Some src.
Proof.
  induction src as [|c src IH]; [reflexivity|]. simpl. intros H.
  apply andb_prop in H as [H H3]. apply andb_prop in H as [H1 H2].
  apply negb_true_iff in H1, H2. simpl in IH. now rewrite H1, H2, (IH H3).
Qed.

Lemma until_bracket_found (alt src trail : string) :
  free_of "]" alt = true -> free_of ")" src = true ->
  until_bracket (alt ++ "](" ++ src ++ ")" ++ trail) = Some (alt, src).
Proof.
  intros Ha Hs. induction alt as [|c alt IH].
  - pose proof (until_paren_found src trail Hs) as E. simpl in E |- *. now rewrite E.
  - simpl in Ha. apply andb_prop in Ha as [H H3]. apply andb_prop in H as [H1 H2].
    apply negb_true_iff in H1, H2. simpl in IH |- *. now rewrite H1, H2, (IH H3).
Qed.

Lemma image_match_found (lead alt src trail : string) :
  no_char "!" lead = true -> free_of "]" alt = true -> free_of ")" src = true ->
  image_match (lead ++ "![" ++ alt ++ "](" ++ src ++ ")" ++ trail) = Some (alt, src).
Proof.
  intros Hl Ha Hs. induction lead as [|c lead IH].
  - pose proof (until_bracket_found alt src trail Ha Hs) as E. simpl in E |- *.
    now rewrite E.
  - simpl in Hl. apply andb_prop in Hl as [H1 H2]. apply negb_true_iff in H1.
    simpl in IH |- *. now rewrite H1, (IH H2).
Qed.

(** The line passes the tests in front of the image test: it is no fence,
    no heading, no list line and not blank. *)
Definition text_line (line : string) : bool :=
  negb (startsWith line "```")
  && negb (startsWith line "## ")
  && negb (startsWith line "### ")
  && negb (is_some (numbered_marker line))
  && negb (startsWith line "- " || startsWith line "* ")
  && negb (blank line).

(** X22: images.  The image test finds [![alt](src)] anywhere in a line:
    the first such reference gives the node.  Outside a code block, a line
    that holds a reference and is no fence, heading, list line or blank
    line emits the pending paragraph and the pending list and then one
    [img] node; the text of the line around the reference is dropped. *)
Theorem image_reference_line :
  (forall lead alt src trail,
      no_char "!" lead = true -> free_of "]" alt = true -> free_of ")" src = true ->
      image_match (lead ++ "![" ++ alt ++ "](" ++ src ++ ")" ++ trail) = Some (alt, src))
  /\ (forall st lead alt src trail index,
         inCodeBlock st = false ->
         text_line (lead ++ "![" ++ alt ++ "](" ++ src ++ ")" ++ trail) = true ->
         no_char "!" lead = true -> free_of "]" alt = true -> free_of ")" src = true ->
         step st (lead ++ "![" ++ alt ++ "](" ++ src ++ ")" ++ trail) index =
         {| elements := elements st ++ paragraph_node (IndexKey "p" index) st
                                    ++ list_node (IndexKey "ul" index) st
                                    ++ [img (IndexKey "img" index) src alt];
            currentParagraph := [];
            inCodeBlock := false;
            codeLines := codeLines st;
            listItems := [] |}).
Proof.
  split; [exact image_match_found|].
  intros st lead alt src trail index Hin Ht Hl Ha Hs.
  pose proof (image_match_found lead alt src trail Hl Ha Hs) as Hm.
  assert (Hcode : false = inCodeBlock st) by now symmetry.
  unfold text_line, blank in Ht.
  repeat (apply andb_prop in Ht as [Ht ?]).
  repeat match goal with
         | E : negb _ = true |- _ => apply negb_true_iff in E
         end.
  unfold step, image_test.
  repeat match goal with
         | E : _ = false |- _ => rewrite E; clear E
         end.
  rewrite Hm, flush_both_spec. unfold push. simpl.
  now rewrite <- Hcode, <- !app_assoc.
Qed.

End RenderExtra.

(** ** Unrecognised text *)

Module RenderText.
Import Js JsFacts BlogPost RenderFacts RenderExtra.

(** A pending paragraph is either emitted by the next line or grows by it. *)
Lemma step_paragraph (st : State) (line : string) (index : nat) :
  buffers_ok st -> currentParagraph st <> [] ->
  (exists key, In (p key (join " " (currentParagraph st))) (elements (step st line index)))
  \/ currentParagraph (step st line index) = currentParagraph st ++ [bold line].
Proof.
  unfold buffers_ok. destruct st as [els cp code cl items].
  cbn [currentParagraph inCodeBlock listItems elements codeLines].
  intros Hok Hne.
  assert (Hn : nonempty cp = true) by (destruct cp; [contradiction|reflexivity]).
  destruct code; [destruct Hok; contradiction|].
  unfold step, flush_both, flush_list, flush_paragraph, push, push_item.
  cbn [currentParagraph inCodeBlock listItems elements codeLines]. rewrite ?Hn.
  cbn [currentParagraph inCodeBlock listItems elements codeLines].
  repeat match goal with
         | |- context [if ?b then _ else _] => destruct b eqn:?
         | |- context [match image_match ?l with _ => _ end] =>
             destruct (image_match l) as [[? ?]|] eqn:?
         end;
    cbn [currentParagraph inCodeBlock listItems elements codeLines];
    first [ right; reflexivity
          | left; exists (IndexKey "p" index); rewrite ?in_app_iff; cbn [In]; auto 10 ].
Qed.

(** A pending paragraph always reaches the result, in one [p] node that
    starts with the buffered text. *)
Lemma paragraph_emitted (lines : list string) :
  forall index st,
    buffers_ok st -> currentParagraph st <> [] ->
    exists key after,
      In (p key (join " " (currentParagraph st ++ after)))
         (finish (forEach lines index st)).
Proof.
  induction lines as [|line lines IH]; intros index st Hok Hne.
  - exists (NamedKey "final-p"), []. simpl. rewrite finish_spec, app_nil_r.
    unfold paragraph_node. destruct (currentParagraph st); [contradiction|].
    simpl. apply in_or_app. right. now left.
  - simpl. destruct (step_paragraph st line index Hok Hne) as [(key & Hin)|Hgrow].
    + exists key, []. rewrite app_nil_r, finish_spec.
      destruct (forEach_extends lines (S index) (step st line index)) as (new & ->).
      apply in_or_app. left. apply in_or_app. now left.
    + destruct (IH (S index) (step st line index)) as (key & after & Hin).
      * now apply step_buffers_ok.
      * rewrite Hgrow. now destruct (currentParagraph st).
      * exists key, (bold line :: after). rewrite Hgrow, <- app_assoc in Hin. exact Hin.
Qed.

(** C7: [renderContent] has no error case, and text that no test of the
    callback recognises ends up as paragraph text.  A markdown text all of
    whose lines are such text renders as one paragraph, the lines joined by
    single spaces.  In any markdown text, such a line outside a code block
    appears, with its bold spans formatted, in a paragraph of the result;
    without two stars in a row it appears there unchanged.  The one place
    where the callback reads the groups of a match is reached only when the
    match exists. *)
Theorem unrecognized_lines_become_paragraph_text :
  (forall markdown,
      forallb regular_text (split_nl markdown) = true ->
      renderContent markdown
      = [p (NamedKey "final-p") (join " " (map bold (split_nl markdown)))])
  /\ (forall markdown front line rest,
         split_nl markdown = front ++ line :: rest ->
         inCodeBlock (forEach front 0 initial) = false ->
         regular_text line = true ->
         exists key before after,
           In (p key (join " " (before ++ bold line :: after))) (renderContent markdown))
  /\ (forall line, has_two_stars line = false -> bold line = line)
  /\ (forall line, image_test line = true ->
                   exists alt src, image_match line = Some (alt, src)).
Proof.
  split; [|split; [|split]].
  - intros markdown Hlines. unfold renderContent, renderLines.
    rewrite (forEach_regular _ Hlines initial 0) by reflexivity.
    destruct (split_nl_cons markdown) as (l & ls & ->). reflexivity.
  - intros markdown front line rest Hsplit Hout Hline.
    unfold renderContent, renderLines. rewrite Hsplit, forEach_app. simpl forEach.
    set (st := forEach front 0 initial) in *.
    destruct (paragraph_emitted rest (S (0 + List.length front))
                (step st line (0 + List.length front))) as (key & after & Hin).
    + apply step_buffers_ok. apply reachable_buffers_ok.
    + rewrite (step_regular st line _ Hout Hline). simpl.
      now destruct (currentParagraph st).
    + exists key, (currentParagraph st), after.
      rewrite (step_regular st line (0 + List.length front) Hout Hline) in Hin.
      cbn [currentParagraph] in Hin. rewrite <- app_assoc in Hin.
      rewrite (step_regular st line (List.length front) Hout Hline). exact Hin.
  - apply bold_plain.
  - intros line H. unfold image_test in H.
    destruct (image_match line) as [[alt src]|]; [now exists alt, src|discriminate].
Qed.

Lemma unrecognized_lines_become_paragraph_text_witness :
  renderContent ("> a quote" ++ RenderExtra.nl ++ "#### deep" ++ RenderExtra.nl
                 ++ "see [link](url), `code`, _it_ and **bold**")
  = [p (NamedKey "final-p")
       "> a quote #### deep see [link](url), `code`, _it_ and <strong>bold</strong>"]
  /\ (exists key before after,
         In (p key (join " " (before ++ bold "| a | b |" :: after)))
            (renderContent ("## Title" ++ RenderExtra.nl ++ "| a | b |" ++ RenderExtra.nl
                            ++ "- item")))
  /\ bold "2 * 3 * 4" = "2 * 3 * 4"
  /\ exists alt src, image_match "![Alt](/img/x.png)" = Some (alt, src).
Proof.
  destruct unrecognized_lines_become_paragraph_text as (H1 & H2 & H3 & H4).
  split; [|split; [|split]].
  - rewrite H1 by reflexivity. reflexivity.
  - apply (H2 _ ["## Title"] "| a | b |" ["- item"]); reflexivity.
  - apply H3. reflexivity.
  - apply H4. reflexivity.
Defined.

End RenderText.

(** ** The further properties on the sample content *)

Module ExtraSamples.
Import Js JsFacts BlogLoader LoaderFacts LoaderExtra App AppFacts.

Local Abbreviation sample_load := (loadBlogPosts Sample.matter Sample.Date_parse).

Lemma loaded_post_origin_witness :
  exists post k filename text data markdown,
    nth_error (sample_load Sample.blogContents (Some "General")) 0 = Some post
    /\ nth_error Sample.blogContents k = Some (filename, text)
    /\ Sample.matter text = inr (data, markdown)
    /\ post = build_post (Z.of_nat k + 1) filename data markdown.
Proof.
  destruct (nth_error (sample_load Sample.blogContents (Some "General")) 0)
    as [post|] eqn:E; [|discriminate E].
  destruct (loaded_post_origin Sample.matter Sample.Date_parse Sample.blogContents
              (Some "General") post (nth_error_In _ _ E))
    as (k & fn & text & data & markdown & H).
  exists post, k, fn, text, data, markdown. split; [reflexivity|exact H].
Defined.

Lemma loaded_category_not_empty_witness :
  exists post,
    nth_error (sample_load Sample.blogContents None) 0 = Some post
    /\ category post <> "".
Proof.
  destruct (nth_error (sample_load Sample.blogContents None) 0) as [post|] eqn:E;
    [|discriminate E].
  exists post. split; [reflexivity|].
  exact (loaded_category_not_empty Sample.matter Sample.Date_parse Sample.blogContents
           None post (nth_error_In _ _ E)).
Defined.

Lemma unknown_category_is_empty_witness :
  sample_load Sample.blogContents (Some "Travel") = [].
Proof.
  apply (unknown_category_is_empty Sample.matter Sample.Date_parse
           Sample.blogContents "Travel"); [discriminate|].
  intros post Hin. vm_compute in Hin.
  destruct Hin as [<-|[<-|[<-|[<-|[]]]]]; discriminate.
Defined.

Lemma equal_dates_keep_table_order_witness :
  exists p1 p2, sample_load Sample.sameDay None = [p1; p2] /\ (id p1 < id p2)%Z.
Proof.
  destruct (sample_load Sample.sameDay None) as [|p1 [|p2 [|p3 rest]]] eqn:E;
    try discriminate E.
  exists p1, p2. split; [reflexivity|].
  apply (equal_dates_keep_table_order Sample.matter Sample.Date_parse Sample.sameDay None
           [] [] [] p1 p2 eq_refl E).
  vm_compute in E. injection E as <- <-. reflexivity.
Defined.

Lemma console_iff_failure_witness :
  List.length (sample_load Sample.blogContents None) = 4%nat
  /\ console_of Sample.matter Sample.Date_parse Sample.blogContents None = [].
Proof.
  destruct (console_iff_failure Sample.matter Sample.Date_parse Sample.blogContents None)
    as (H1 & _ & H3).
  split; [exact (proj1 (H3 eq_refl))|]. apply H1. reflexivity.
Defined.

Lemma slug_removes_first_md_witness :
  slug (build_post 1 "readme" (mkData None None None None None) "") = "readme"
  /\ slug (build_post 1 "notes.md" (mkData None None None None None) "") = "notes"
  /\ slug (build_post 1 "notes.md.bak.md" (mkData None None None None None) "")
     = "notes.bak.md".
Proof.
  destruct (slug_removes_first_md 1 (mkData None None None None None) "") as (H1 & H2 & H3).
  split; [|split].
  - apply (H1 "readme"). reflexivity.
  - apply (H2 "notes"). reflexivity.
  - apply (H3 "notes" ".bak.md"). reflexivity.
Defined.

Lemma sample_names :
  NoDup (map fst Sample.blogContents) /\ Forall md_name (map fst Sample.blogContents).
Proof.
  split.
  - simpl. repeat constructor; simpl; intuition discriminate.
  - simpl. repeat constructor.
    + exists "web-development-journey". now split.
    + exists "automated-s3-security". now split.
    + exists "aws-backup-mastery". now split.
    + exists "notes". now split.
Defined.

Lemma post_page_finds_slug_witness :
  (exists post body,
      BlogPostPage Sample.matter Sample.Date_parse Sample.blogContents "notes"
      = Article post body
      /\ slug post = "notes")
  /\ BlogPostPage Sample.matter Sample.Date_parse Sample.blogContents "missing" = NotFound.
Proof.
  destruct (post_page_finds_slug Sample.matter Sample.Date_parse Sample.blogContents "notes")
    as [H _].
  destruct (post_page_finds_slug Sample.matter Sample.Date_parse Sample.blogContents "missing")
    as [_ H'].
  split.
  - destruct (BlogPostPage Sample.matter Sample.Date_parse Sample.blogContents "notes")
      as [|post body] eqn:E; [discriminate E|].
    exists post, body. split; [reflexivity|]. exact (proj1 (H post body eq_refl)).
  - apply H'. intros post Hin. vm_compute in Hin.
    destruct Hin as [<-|[<-|[<-|[<-|[]]]]]; discriminate.
Defined.

Lemma slug_opens_its_post_witness :
  exists post,
    nth_error (sample_load Sample.blogContents None) 2 = Some post
    /\ BlogPostPage Sample.matter Sample.Date_parse Sample.blogContents (slug post)
       = Article post (BlogPost.renderContent (content post)).
Proof.
  destruct (nth_error (sample_load Sample.blogContents None) 2) as [post|] eqn:E;
    [|discriminate E].
  exists post. split; [reflexivity|].
  exact (slug_opens_its_post Sample.matter Sample.Date_parse Sample.blogContents post
           (proj1 sample_names) (proj2 sample_names) (nth_error_In _ _ E)).
Defined.

Lemma sample_stays_parsed : stays_parsed Sample.matter Sample.matter_again.
Proof.
  intros text data markdown H. unfold Sample.matter_again. now rewrite H.
Defined.

Lemma category_button_leads_to_posts_witness :
  exists cards,
    main (HomePage Sample.matter Sample.matter_again Sample.Date_parse
            Sample.mixedContents (Some "General"))
    = Cards cards
    /\ List.length cards = 2%nat
    /\ Forall (fun post => category post = "General") cards.
Proof.
  destruct (category_button_leads_to_posts Sample.matter Sample.matter_again
              Sample.Date_parse Sample.mixedContents "General" sample_stays_parsed)
    as (cards & H1 & _ & H2 & H3 & _).
  - vm_compute. auto.
  - discriminate.
  - exists cards. split; [exact H1|split; [|exact H2]].
    rewrite (Permutation_length H3). reflexivity.
Defined.

Import BlogPost RenderFacts RenderExtra.

Lemma split_join_round_trip_witness :
  join nl (split_nl ("a" ++ nl ++ nl ++ "b" ++ nl)) = ("a" ++ nl ++ nl ++ "b" ++ nl)%string
  /\ split_nl (join nl ["## Title"; ""; "Hello"]) = ["## Title"; ""; "Hello"]
  /\ split_nl ("one" ++ nl ++ "two") = ["one"; "two"].
Proof.
  destruct split_join_round_trip as (H1 & H2 & H3).
  split; [|split].
  - apply H1.
  - apply H2; [discriminate|reflexivity].
  - apply (H3 "one" "two").
Defined.

Lemma code_block_holds_its_lines_witness :
  elements (forEach (["Intro"; "- item"] ++ "```js" :: ["let x = 1;"; "## kept"] ++ ["```"])
              0 initial)
  = [p (IndexKey "p" 1) "Intro";
     ul (IndexKey "ul" 2) [li (IndexKey "li" 1) "item"];
     pre (IndexKey "code" 5) ("let x = 1;" ++ nl ++ "## kept")].
Proof.
  rewrite (code_block_holds_its_lines ["Intro"; "- item"] "```js"
             ["let x = 1;"; "## kept"] "```" eq_refl eq_refl
             ltac:(repeat constructor) eq_refl).
  reflexivity.
Defined.

Lemma fenced_markdown_verbatim_witness :
  renderContent ("```" ++ "python" ++ nl ++ ("def f():" ++ nl ++ "    return **1**")
                 ++ nl ++ "```")
  = [pre (IndexKey "code" 3) ("def f():" ++ nl ++ "    return **1**")].
Proof.
  exact (fenced_markdown_verbatim "python" ("def f():" ++ nl ++ "    return **1**")
           eq_refl eq_refl).
Defined.

Lemma heading_flushes_buffers_witness :
  elements (step Sample.pending ("## " ++ "Next **part**") 2)
  = [h2 (IndexKey "h2" 0) "Title"; p (IndexKey "p" 2) "Some text";
     ul (IndexKey "ul" 2) [li (IndexKey "li" 1) "item"];
     h2 (IndexKey "h2" 2) "Next **part**"]
  /\ elements (step Sample.pending ("### " ++ "Deeper") 2)
     = [h2 (IndexKey "h2" 0) "Title"; p (IndexKey "p" 2) "Some text";
        ul (IndexKey "ul" 2) [li (IndexKey "li" 1) "item"];
        h3 (IndexKey "h3" 2) "Deeper"]
  /\ renderLines (["- one"; "2. two"] ++ [("## " ++ "Next")%string])
     = [ul (IndexKey "ul" 2) [li (IndexKey "li" 0) "one"; li (IndexKey "li" 1) "two"];
        h2 (IndexKey "h2" 2) "Next"].
Proof.
  destruct heading_flushes_buffers as (H1 & H2 & H3).
  split; [|split].
  - rewrite (H1 Sample.pending "Next **part**" 2 eq_refl). reflexivity.
  - rewrite (H2 Sample.pending "Deeper" 2 eq_refl). reflexivity.
  - rewrite (H3 ["- one"; "2. two"] ["one"; "two"] "Next"); [reflexivity|discriminate|].
    constructor; [apply (dash_line "one")|].
    constructor; [apply (numbered_line "2" "two"); [discriminate|reflexivity]|constructor].
Defined.

Lemma paragraph_comes_before_list_witness :
  renderLines (["Shopping:"] ++ ["- milk"; "- eggs"])
  = [p (IndexKey "p" 1) "Shopping:";
     ul (NamedKey "final-ul") [li (IndexKey "li" 1) "milk"; li (IndexKey "li" 2) "eggs"]]
  /\ renderLines (["- milk"; "- eggs"] ++ ["Shopping:"])
     = [p (NamedKey "final-p") "Shopping:";
        ul (NamedKey "final-ul") [li (IndexKey "li" 0) "milk"; li (IndexKey "li" 1) "eggs"]].
Proof.
  apply (paragraph_comes_before_list ["- milk"; "- eggs"] ["milk"; "eggs"] ["Shopping:"]);
    try discriminate; try reflexivity.
  constructor; [apply (dash_line "milk")|].
  constructor; [apply (dash_line "eggs")|constructor].
Defined.

Lemma blank_lines_separate_paragraphs_witness :
  renderLines [""; "   "; ""] = []
  /\ renderLines (["one"; "two"] ++ [""; " "] ++ ["three"])
     = [p (IndexKey "p" 2) "one two"; p (NamedKey "final-p") "three"].
Proof.
  destruct blank_lines_separate_paragraphs as (H1 & H2).
  split.
  - apply H1. reflexivity.
  - apply (H2 ["one"; "two"] [""; " "] ["three"]); (discriminate || reflexivity).
Defined.

Lemma bold_spans_witness :
  bold ("a * b " ++ "**" ++ "very *good* one" ++ "**" ++ "!")
  = "a * b <strong>very *good* one</strong>!"
  /\ bold ("price" ++ "**" ++ " (see note)") = "price** (see note)".
Proof.
  destruct bold_spans as (H1 & H2).
  split.
  - rewrite (H1 "a * b " "very *good* one" "!") by reflexivity. reflexivity.
  - rewrite (H2 "price" " (see note)") by reflexivity. reflexivity.
Defined.

Lemma image_reference_line_witness :
  image_match ("see " ++ "![" ++ "logo" ++ "](" ++ "/img/x.png" ++ ")" ++ " here")
  = Some ("logo", "/img/x.png")
  /\ elements (step Sample.pending
                 ("see " ++ "![" ++ "logo" ++ "](" ++ "/img/x.png" ++ ")" ++ " here") 2)
     = [h2 (IndexKey "h2" 0) "Title"; p (IndexKey "p" 2) "Some text";
        ul (IndexKey "ul" 2) [li (IndexKey "li" 1) "item"];
        img (IndexKey "img" 2) "/img/x.png" "logo"].
Proof.
  destruct image_reference_line as (H1 & H2).
  split.
  - apply (H1 "see " "logo" "/img/x.png" " here"); reflexivity.
  - rewrite (H2 Sample.pending "see " "logo" "/img/x.png" " here" 2) by reflexivity.
    reflexivity.
Defined.

End ExtraSamples.
